(** * exampleMocoTrack: the two MocoTrack tracking procedures and their driver

    A shallow embedding of [resources/Rajagopal2016/exampleMocoTrack.cpp].

    The program is glue code: it builds configuration values (model
    processors, table processors, weight sets), calls the OpenSim Moco
    toolkit in a fixed order, and iterates once over the model's
    CoordinateActuators.  The toolkit is an external collaborator, so the
    procedures are embedded as programs over the toolkit's calls: a tree
    whose nodes are calls and whose branches are the toolkit's answers.  A
    run is obtained from any description of the toolkit (a handler over a
    toolkit state), which may answer a call or raise an exception; the file
    has no try/catch, so an exception ends the run. *)

From Stdlib Require Import List String Ascii Bool Arith ZArith QArith Lia.
Import ListNotations.

Local Open Scope string_scope.
Local Open Scope list_scope.

Set Implicit Arguments.

(** ** std::string *)

Module StdString.

(** [s.compare(0, pat.size(), pat) == 0]: [pat] occurs at the front of [s]. *)
Fixpoint starts_with (pat s : string) : bool :=
  match pat, s with
  | EmptyString, _ => true
  | String _ _, EmptyString => false
  | String a pat', String b s' => Ascii.eqb a b && starts_with pat' s'
  end.

(** [s.find(pat, pos)] on the suffix of [s] that starts at offset [pos]:
    the first offset at which [pat] occurs, [None] standing for
    [std::string::npos]. *)
Fixpoint find_from (s pat : string) (pos : nat) : option nat :=
  if starts_with pat s then Some pos
  else match s with
       | EmptyString => None
       | String _ s' => find_from s' pat (S pos)
       end.

(** [s.find(pat)]. *)
Definition find (s pat : string) : option nat := find_from s pat 0.

(** [s.find(pat) != std::string::npos]. *)
Definition found (r : option nat) : bool :=
  match r with Some _ => true | None => false end.

End StdString.

(** ** Configuration values built by the program *)

(** The model operators the program appends. *)
Inductive ModelOperator : Type :=
| ModOpAddExternalLoads (filepath : string)
| ModOpRemoveMuscles
| ModOpAddReserves (optimal_force : Q)
| ModOpReplaceMusclesWithDeGrooteFregly2016
| ModOpIgnorePassiveFiberForcesDGF
| ModOpScaleActiveFiberForceCurveWidthDGF (scale_factor : Q).

(** A model processor: the file of the base model and the operators appended
    to it, oldest first. *)
Record ModelProcessor : Type := mkModelProcessor {
  model_filepath : string;
  model_operators : list ModelOperator
}.

(** [ModelProcessor("file")]: a base model and no operator. *)
Definition ModelProcessor_file (filepath : string) : ModelProcessor :=
  mkModelProcessor filepath [].

(** [left | right]: append an operator to the processor. *)
Definition pipe (left : ModelProcessor) (right : ModelOperator) : ModelProcessor :=
  mkModelProcessor (model_filepath left) (model_operators left ++ [right]).

Declare Scope moco_scope.
Delimit Scope moco_scope with moco.
Infix "|>" := pipe (at level 50, left associativity) : moco_scope.

(** A table processor: the file of the base table.  The program appends no
    table operator. *)
Record TableProcessor : Type := mkTableProcessor {
  table_filepath : string
}.

Definition TableProcessor_file (filepath : string) : TableProcessor :=
  mkTableProcessor filepath.

(** [MocoWeight]: a name and a weight. *)
Record MocoWeight : Type := mkMocoWeight {
  weight_name : string;
  weight_value : Q
}.

(** [MocoWeightSet]: the weights in the order they were appended. *)
Definition MocoWeightSet : Type := list MocoWeight.

Definition MocoWeightSet_empty : MocoWeightSet := [].

(** [set.cloneAndAppend({name, weight})]. *)
Definition cloneAndAppend (set : MocoWeightSet) (name : string) (weight : Q)
  : MocoWeightSet :=
  set ++ [mkMocoWeight name weight].

(** ** Toolkit objects *)

(** The toolkit's classes whose objects the program holds. *)
Inductive Class : Set :=
| CMocoTrack | CMocoStudy | CMocoProblem | CMocoGoal | CMocoControlGoal
| CModel | CCoordinateActuator.

(** An object of a toolkit class, known to the program only by its identity. *)
Record Obj (c : Class) : Set := mkObj { obj_id : nat }.

Definition MocoTrack : Set := Obj CMocoTrack.
Definition MocoStudy : Set := Obj CMocoStudy.
Definition MocoProblem : Set := Obj CMocoProblem.
Definition MocoGoal : Set := Obj CMocoGoal.
Definition MocoControlGoal : Set := Obj CMocoControlGoal.
Definition Model : Set := Obj CModel.
Definition CoordinateActuator : Set := Obj CCoordinateActuator.

(** What a solve hands back; the program never looks inside. *)
Record MocoSolution : Set := mkMocoSolution {
  solution_success : bool;
  solution_id : nat
}.

(** What the toolkit throws. *)
Record Exception : Set := mkException { what : string }.

(** ** Calls into the toolkit *)

Inductive Call : Type :=
(* MocoTrack track; *)
| MocoTrack_new
| setName (track : MocoTrack) (name : string)
| setModel (track : MocoTrack) (model : ModelProcessor)
| setMarkersReferenceFromTRC (track : MocoTrack) (filepath : string)
| setStatesReference (track : MocoTrack) (states : TableProcessor)
| set_allow_unused_references (track : MocoTrack) (value : bool)
| set_track_reference_position_derivatives (track : MocoTrack) (value : bool)
| set_markers_global_tracking_weight (track : MocoTrack) (weight : Q)
| set_states_global_tracking_weight (track : MocoTrack) (weight : Q)
| set_markers_weight_set (track : MocoTrack) (weights : MocoWeightSet)
| set_initial_time (track : MocoTrack) (time : Q)
| set_final_time (track : MocoTrack) (time : Q)
| set_mesh_interval (track : MocoTrack) (interval : Q)
(* track.solve(visualize) *)
| MocoTrack_solve (track : MocoTrack) (visualize : bool)
(* track.initialize() *)
| MocoTrack_initialize (track : MocoTrack)
| updProblem (moco : MocoStudy)
| updGoal (problem : MocoProblem) (name : string)
(* dynamic_cast<MocoControlGoal&>(goal) *)
| dynamic_cast_MocoControlGoal (goal : MocoGoal)
(* modelProcessor.process() *)
| ModelProcessor_process (modelProcessor : ModelProcessor)
(* model.getComponentList<CoordinateActuator>() *)
| getComponentList_CoordinateActuator (model : Model)
| getAbsolutePathString (coordAct : CoordinateActuator)
| setWeightForControl (effort : MocoControlGoal) (controlName : string) (weight : Q)
(* moco.solve() *)
| MocoStudy_solve (moco : MocoStudy)
| MocoStudy_visualize (moco : MocoStudy) (solution : MocoSolution).

(** The type of what each call returns. *)
Definition Result (c : Call) : Set :=
  match c with
  | MocoTrack_new => MocoTrack
  | MocoTrack_solve _ _ => MocoSolution
  | MocoTrack_initialize _ => MocoStudy
  | updProblem _ => MocoProblem
  | updGoal _ _ => MocoGoal
  | dynamic_cast_MocoControlGoal _ => MocoControlGoal
  | ModelProcessor_process _ => Model
  | getComponentList_CoordinateActuator _ => list CoordinateActuator
  | getAbsolutePathString _ => string
  | MocoStudy_solve _ => MocoSolution
  | _ => unit
  end.

(** ** Programs over the toolkit *)

(** A program returns, or makes a call and goes on with its result. *)
Inductive Prog (A : Type) : Type :=
| Ret (a : A)
| Vis (c : Call) (k : Result c -> Prog A).

Arguments Ret {A} a.
Arguments Vis {A} c k.

Fixpoint bind {A B : Type} (p : Prog A) (f : A -> Prog B) : Prog B :=
  match p with
  | Ret a => f a
  | Vis c k => Vis c (fun r => bind (k r) f)
  end.

(** Make one call. *)
Definition trigger (c : Call) : Prog (Result c) := Vis c (fun r => Ret r).

Notation "x <- p ;; q" := (bind p (fun x => q))
  (at level 61, p at next level, right associativity) : moco_scope.
Notation "p ;; q" := (bind p (fun _ => q))
  (at level 61, right associativity) : moco_scope.

(** [for (const auto& x : xs) body(x)]. *)
Fixpoint for_each {T : Type} (xs : list T) (body : T -> Prog unit) : Prog unit :=
  match xs with
  | [] => Ret tt
  | x :: xs' => bind (body x) (fun _ => for_each xs' body)
  end.

(** ** The program *)

Local Open Scope moco_scope.
Local Open Scope Q_scope.

Definition EXIT_SUCCESS : Z := 0%Z.

(** Lines 89-103: the marker weights, appended one by one. *)
Definition markerWeights : MocoWeightSet :=
  let markerWeights := MocoWeightSet_empty in
  let markerWeights := cloneAndAppend markerWeights "R.ASIS" 20 in
  let markerWeights := cloneAndAppend markerWeights "L.ASIS" 20 in
  let markerWeights := cloneAndAppend markerWeights "R.PSIS" 20 in
  let markerWeights := cloneAndAppend markerWeights "L.PSIS" 20 in
  let markerWeights := cloneAndAppend markerWeights "R.Knee" 10 in
  let markerWeights := cloneAndAppend markerWeights "R.Ankle" 10 in
  let markerWeights := cloneAndAppend markerWeights "R.Heel" 10 in
  let markerWeights := cloneAndAppend markerWeights "R.MT5" 5 in
  let markerWeights := cloneAndAppend markerWeights "R.Toe" 2 in
  let markerWeights := cloneAndAppend markerWeights "L.Knee" 10 in
  let markerWeights := cloneAndAppend markerWeights "L.Ankle" 10 in
  let markerWeights := cloneAndAppend markerWeights "L.Heel" 10 in
  let markerWeights := cloneAndAppend markerWeights "L.MT5" 5 in
  let markerWeights := cloneAndAppend markerWeights "L.Toe" 2 in
  markerWeights.

(** Lines 62-71: the model processor of the torque-driven problem. *)
Definition torque_modelProcessor : ModelProcessor :=
  ModelProcessor_file "subject_walk_armless.osim" |>
  ModOpAddExternalLoads "grf_walk.xml" |>
  ModOpRemoveMuscles |>
  ModOpAddReserves 250.

(** Lines 126-133: the model processor of the muscle-driven problem. *)
Definition muscle_modelProcessor : ModelProcessor :=
  ModelProcessor_file "subject_walk_armless.osim" |>
  ModOpAddExternalLoads "grf_walk.xml" |>
  ModOpReplaceMusclesWithDeGrooteFregly2016 |>
  ModOpIgnorePassiveFiberForcesDGF |>
  ModOpScaleActiveFiberForceCurveWidthDGF 1.5.

(** Lines 49-114. *)
Definition torqueDrivenMarkerTracking : Prog unit :=
  track <- trigger MocoTrack_new ;;
  trigger (setName track "torque_driven_marker_tracking") ;;
  trigger (setModel track torque_modelProcessor) ;;
  trigger (setMarkersReferenceFromTRC track "marker_trajectories.trc") ;;
  trigger (set_allow_unused_references track true) ;;
  trigger (set_markers_global_tracking_weight track 10) ;;
  trigger (set_markers_weight_set track markerWeights) ;;
  trigger (set_initial_time track 0.81) ;;
  trigger (set_final_time track 1.65) ;;
  trigger (set_mesh_interval track 0.05) ;;
  solution <- trigger (MocoTrack_solve track true) ;;
  Ret tt.

(** Line 175: [coordPath.find("pelvis") != std::string::npos]. *)
Definition has_pelvis (coordPath : string) : bool :=
  StdString.found (StdString.find coordPath "pelvis").

(** Lines 173-178: the loop over the model's CoordinateActuators. *)
Definition pelvis_loop (effort : MocoControlGoal)
    (coordActs : list CoordinateActuator) : Prog unit :=
  for_each coordActs (fun coordAct =>
    coordPath <- trigger (getAbsolutePathString coordAct) ;;
    if has_pelvis coordPath
    then trigger (setWeightForControl effort coordPath 10)
    else Ret tt).

(** Lines 116-183. *)
Definition muscleDrivenStateTracking : Prog unit :=
  track <- trigger MocoTrack_new ;;
  trigger (setName track "muscle_driven_state_tracking") ;;
  let modelProcessor := muscle_modelProcessor in
  trigger (setModel track modelProcessor) ;;
  trigger (setStatesReference track (TableProcessor_file "coordinates.sto")) ;;
  trigger (set_states_global_tracking_weight track 10) ;;
  trigger (set_allow_unused_references track true) ;;
  trigger (set_track_reference_position_derivatives track true) ;;
  trigger (set_initial_time track 0.81) ;;
  trigger (set_final_time track 1.65) ;;
  trigger (set_mesh_interval track 0.08) ;;
  moco <- trigger (MocoTrack_initialize track) ;;
  problem <- trigger (updProblem moco) ;;
  goal <- trigger (updGoal problem "control_effort") ;;
  effort <- trigger (dynamic_cast_MocoControlGoal goal) ;;
  model <- trigger (ModelProcessor_process modelProcessor) ;;
  coordActs <- trigger (getComponentList_CoordinateActuator model) ;;
  pelvis_loop effort coordActs ;;
  solution <- trigger (MocoStudy_solve moco) ;;
  trigger (MocoStudy_visualize moco solution) ;;
  Ret tt.

(** Lines 185-198. *)
Definition main : Prog Z :=
  torqueDrivenMarkerTracking ;;
  muscleDrivenStateTracking ;;
  Ret EXIT_SUCCESS.

Local Close Scope Q_scope.

(** ** Running a program against a toolkit *)

(** How a run ends: the procedure returns, or an exception leaves it. *)
Inductive Outcome (A : Type) : Type :=
| Returned (a : A)
| Thrown (e : Exception).

Arguments Returned {A} a.
Arguments Thrown {A} e.

(** One call of a run with what the toolkit did: an answer or an exception. *)
Record Entry : Type := mkEntry {
  call : Call;
  response : Exception + Result call
}.

Definition Trace : Type := list Entry.

(** A toolkit: for each call, from its state, an exception or an answer, and
    its next state. *)
Definition Toolkit (S : Type) : Type :=
  forall c : Call, S -> (Exception + Result c) * S.

Record Run (S A : Type) : Type := mkRun {
  outcome : Outcome A;
  final : S;
  trace : Trace
}.

Fixpoint run {S A : Type} (h : Toolkit S) (p : Prog A) (s : S) : Run S A :=
  match p with
  | Ret a => mkRun (Returned a) s []
  | Vis c k =>
      match h c s with
      | (inl e, s') => mkRun (Thrown e) s' [mkEntry c (inl e)]
      | (inr r, s') =>
          let '(mkRun o s'' tr) := run h (k r) s' in
          mkRun o s'' (mkEntry c (inr r) :: tr)
      end
  end.

(** ** What a run shows *)

(** The calls of a run, in order. *)
Definition calls (tr : Trace) : list Call := map call tr.

(** A solve: [track.solve(...)] or [moco.solve()]. *)
Definition is_solve (c : Call) : bool :=
  match c with
  | MocoTrack_solve _ _ | MocoStudy_solve _ => true
  | _ => false
  end.

Definition solve_count (cs : list Call) : nat := List.length (filter is_solve cs).





(** The control weights a call sets on a goal. *)
Definition weight_set (c : Call) : list (MocoControlGoal * string * Q) :=
  match c with
  | setWeightForControl effort controlName weight => [(effort, controlName, weight)]
  | _ => []
  end.

Definition weights_set (cs : list Call) : list (MocoControlGoal * string * Q) :=
  flat_map weight_set cs.

(** The actuator a call asks the path of. *)
Definition path_query (c : Call) : list CoordinateActuator :=
  match c with
  | getAbsolutePathString coordAct => [coordAct]
  | _ => []
  end.

Definition path_queries (cs : list Call) : list CoordinateActuator :=
  flat_map path_query cs.

(** The path the toolkit answered to [getAbsolutePathString], with the
    actuator asked. *)
Definition path_answer (e : Entry) : list (CoordinateActuator * string) :=
  match e with
  | mkEntry c r =>
      match c return Exception + Result c -> list (CoordinateActuator * string) with
      | getAbsolutePathString coordAct =>
          fun r => match r with inr p => [(coordAct, p)] | inl _ => [] end
      | _ => fun _ => []
      end r
  end.

Definition path_answers (tr : Trace) : list (CoordinateActuator * string) :=
  flat_map path_answer tr.

(** The actuators the toolkit listed on [getComponentList<CoordinateActuator>],
    with the model asked. *)
Definition component_list (e : Entry) : list (Model * list CoordinateActuator) :=
  match e with
  | mkEntry c r =>
      match c return Exception + Result c ->
                     list (Model * list CoordinateActuator) with
      | getComponentList_CoordinateActuator model =>
          fun r => match r with inr l => [(model, l)] | inl _ => [] end
      | _ => fun _ => []
      end r
  end.

Definition component_lists (tr : Trace) : list (Model * list CoordinateActuator) :=
  flat_map component_list tr.

(** The model the toolkit made of a processor on [process()], with the
    processor. *)
Definition model_processed (e : Entry) : list (ModelProcessor * Model) :=
  match e with
  | mkEntry c r =>
      match c return Exception + Result c -> list (ModelProcessor * Model) with
      | ModelProcessor_process mp =>
          fun r => match r with inr m => [(mp, m)] | inl _ => [] end
      | _ => fun _ => []
      end r
  end.

Definition models_processed (tr : Trace) : list (ModelProcessor * Model) :=
  flat_map model_processed tr.

(** The tool a [MocoTrack track;] constructed. *)
Definition track_made (e : Entry) : list MocoTrack :=
  match e with
  | mkEntry c r =>
      match c return Exception + Result c -> list MocoTrack with
      | MocoTrack_new =>
          fun r => match r with inr t => [t] | inl _ => [] end
      | _ => fun _ => []
      end r
  end.

Definition tracks_made (tr : Trace) : list MocoTrack := flat_map track_made tr.

(** The tool a call is made on, for the calls made on a tool. *)
Definition track_used (c : Call) : list MocoTrack :=
  match c with
  | setName t _ | setModel t _ | setMarkersReferenceFromTRC t _
  | setStatesReference t _ | set_allow_unused_references t _
  | set_track_reference_position_derivatives t _
  | set_markers_global_tracking_weight t _
  | set_states_global_tracking_weight t _ | set_markers_weight_set t _
  | set_initial_time t _ | set_final_time t _ | set_mesh_interval t _
  | MocoTrack_solve t _ | MocoTrack_initialize t => [t]
  | _ => []
  end.

Definition tracks_used (cs : list Call) : list MocoTrack :=
  flat_map track_used cs.

(** The goal the cast handed back. *)
Definition control_goal (e : Entry) : list MocoControlGoal :=
  match e with
  | mkEntry c r =>
      match c return Exception + Result c -> list MocoControlGoal with
      | dynamic_cast_MocoControlGoal _ =>
          fun r => match r with inr g => [g] | inl _ => [] end
      | _ => fun _ => []
      end r
  end.

Definition control_goals (tr : Trace) : list MocoControlGoal :=
  flat_map control_goal tr.

(** The solutions the solves handed back. *)
Definition solution_of (e : Entry) : list MocoSolution :=
  match e with
  | mkEntry c r =>
      match c return Exception + Result c -> list MocoSolution with
      | MocoTrack_solve _ _ | MocoStudy_solve _ =>
          fun r => match r with inr sol => [sol] | inl _ => [] end
      | _ => fun _ => []
      end r
  end.

Definition solutions (tr : Trace) : list MocoSolution := flat_map solution_of tr.

(** The exception of an entry, if the call threw. *)
Definition thrown_by (e : Entry) : option Exception :=
  match response e with inl ex => Some ex | inr _ => None end.

Definition answered (e : Entry) : bool :=
  match thrown_by e with Some _ => false | None => true end.

(** [path] contains [pat] as a substring. *)
Definition contains (path pat : string) : Prop :=
  exists pre post : string, path = (pre ++ pat ++ post)%string.

(** *** Input files *)

(** What the toolkit reads a file as. *)
Inductive FileRole : Set :=
| ModelDescription | GroundReactionForces | MarkerTrajectories | CoordinateData.

Definition operator_files (op : ModelOperator) : list (FileRole * string) :=
  match op with
  | ModOpAddExternalLoads filepath => [(GroundReactionForces, filepath)]
  | _ => []
  end.

Definition processor_files (mp : ModelProcessor) : list (FileRole * string) :=
  (ModelDescription, model_filepath mp) ::
  flat_map operator_files (model_operators mp).

(** The file paths a call hands to the toolkit. *)
Definition call_files (c : Call) : list (FileRole * string) :=
  match c with
  | setModel _ mp => processor_files mp
  | ModelProcessor_process mp => processor_files mp
  | setMarkersReferenceFromTRC _ filepath => [(MarkerTrajectories, filepath)]
  | setStatesReference _ tp => [(CoordinateData, table_filepath tp)]
  | _ => []
  end.

Definition input_files (cs : list Call) : list (FileRole * string) :=
  flat_map call_files cs.

Definition the_input_files : list (FileRole * string) :=
  [ (ModelDescription, "subject_walk_armless.osim");
    (GroundReactionForces, "grf_walk.xml");
    (MarkerTrajectories, "marker_trajectories.trc");
    (CoordinateData, "coordinates.sto") ].

(** The model processors handed to [setModel]. *)
Definition model_set (c : Call) : list ModelProcessor :=
  match c with
  | setModel _ mp => [mp]
  | _ => []
  end.

Definition models_set (cs : list Call) : list ModelProcessor :=
  flat_map model_set cs.

(** *** Phases of a procedure *)







(** *** Settings of a tool when its problem is built *)

Record TrackSettings : Type := mkTrackSettings {
  initial_time : option Q;
  final_time : option Q;
  mesh_interval : option Q;
  markers_global_tracking_weight : option Q;
  states_global_tracking_weight : option Q
}.

(** A tool as constructed: nothing set by the program yet. *)
Definition no_settings : TrackSettings :=
  mkTrackSettings None None None None None.

Definition Obj_eqb {c : Class} (a b : Obj c) : bool :=
  Nat.eqb (obj_id a) (obj_id b).

(** The effect of one call on the scalar settings of the tool [track]. *)
Definition apply_setting (track : MocoTrack) (st : TrackSettings) (c : Call)
  : TrackSettings :=
  match c with
  | set_initial_time t v =>
      if Obj_eqb t track
      then mkTrackSettings (Some v) (final_time st) (mesh_interval st)
             (markers_global_tracking_weight st) (states_global_tracking_weight st)
      else st
  | set_final_time t v =>
      if Obj_eqb t track
      then mkTrackSettings (initial_time st) (Some v) (mesh_interval st)
             (markers_global_tracking_weight st) (states_global_tracking_weight st)
      else st
  | set_mesh_interval t v =>
      if Obj_eqb t track
      then mkTrackSettings (initial_time st) (final_time st) (Some v)
             (markers_global_tracking_weight st) (states_global_tracking_weight st)
      else st
  | set_markers_global_tracking_weight t v =>
      if Obj_eqb t track
      then mkTrackSettings (initial_time st) (final_time st) (mesh_interval st)
             (Some v) (states_global_tracking_weight st)
      else st
  | set_states_global_tracking_weight t v =>
      if Obj_eqb t track
      then mkTrackSettings (initial_time st) (final_time st) (mesh_interval st)
             (markers_global_tracking_weight st) (Some v)
      else st
  | _ => st
  end.

Definition settings_of (track : MocoTrack) (cs : list Call) : TrackSettings :=
  fold_left (apply_setting track) cs no_settings.

(** The tool whose problem a call builds: [track.solve(...)] and
    [track.initialize()] both assemble the problem from the tool's settings. *)
Definition build_target (c : Call) : option MocoTrack :=
  match c with
  | MocoTrack_solve track _ | MocoTrack_initialize track => Some track
  | _ => None
  end.

(** For each build in [cs], the settings its tool had received in the calls
    that came first; [before] holds the calls already passed. *)
Fixpoint builds_after (before cs : list Call) : list TrackSettings :=
  match cs with
  | [] => []
  | c :: cs' =>
      match build_target c with
      | Some track => [settings_of track before]
      | None => []
      end ++ builds_after (before ++ [c]) cs'
  end.

Definition builds (cs : list Call) : list TrackSettings := builds_after [] cs.

(** *** Processing a model *)

Section Process.

(** Any reading of models: how a file is loaded and what an operator does. *)
Variable M : Type.
Variable load : string -> M.
Variable operate : ModelOperator -> M -> M.

(** "Operations are performed in the order that they are appended." *)
Definition process_with (mp : ModelProcessor) : M :=
  fold_left (fun m op => operate op m) (model_operators mp)
            (load (model_filepath mp)).

End Process.

(** *** The calls of the procedures, given what the toolkit handed back *)

Local Open Scope Q_scope.

Definition torque_calls (track : MocoTrack) : list Call :=
  [ MocoTrack_new;
    setName track "torque_driven_marker_tracking";
    setModel track torque_modelProcessor;
    setMarkersReferenceFromTRC track "marker_trajectories.trc";
    set_allow_unused_references track true;
    set_markers_global_tracking_weight track 10;
    set_markers_weight_set track markerWeights;
    set_initial_time track 0.81;
    set_final_time track 1.65;
    set_mesh_interval track 0.05;
    MocoTrack_solve track true ].

Definition muscle_setup_calls (track : MocoTrack) : list Call :=
  [ MocoTrack_new;
    setName track "muscle_driven_state_tracking";
    setModel track muscle_modelProcessor;
    setStatesReference track (TableProcessor_file "coordinates.sto");
    set_states_global_tracking_weight track 10;
    set_allow_unused_references track true;
    set_track_reference_position_derivatives track true;
    set_initial_time track 0.81;
    set_final_time track 1.65;
    set_mesh_interval track 0.08 ].

Definition muscle_customize_calls (track : MocoTrack) (moco : MocoStudy)
    (problem : MocoProblem) (goal : MocoGoal) (model : Model) : list Call :=
  [ MocoTrack_initialize track;
    updProblem moco;
    updGoal problem "control_effort";
    dynamic_cast_MocoControlGoal goal;
    ModelProcessor_process muscle_modelProcessor;
    getComponentList_CoordinateActuator model ].

(** The calls of the loop when the actuators answer the paths [aps]. *)
Definition loop_calls (effort : MocoControlGoal)
    (aps : list (CoordinateActuator * string)) : list Call :=
  flat_map (fun ap =>
    getAbsolutePathString (fst ap) ::
    if has_pelvis (snd ap) then [setWeightForControl effort (snd ap) 10] else [])
    aps.

Definition muscle_solve_calls (moco : MocoStudy) (solution : MocoSolution)
  : list Call :=
  [ MocoStudy_solve moco; MocoStudy_visualize moco solution ].

(** What the toolkit handed back during a run of the muscle-driven procedure. *)
Record MuscleObjects : Type := mkMuscleObjects {
  mo_track : MocoTrack;
  mo_moco : MocoStudy;
  mo_problem : MocoProblem;
  mo_goal : MocoGoal;
  mo_effort : MocoControlGoal;
  mo_model : Model;
  mo_paths : list (CoordinateActuator * string);
  mo_solution : MocoSolution
}.

Definition muscle_calls (o : MuscleObjects) : list Call :=
  muscle_setup_calls (mo_track o) ++
  muscle_customize_calls (mo_track o) (mo_moco o) (mo_problem o) (mo_goal o)
    (mo_model o) ++
  loop_calls (mo_effort o) (mo_paths o) ++
  muscle_solve_calls (mo_moco o) (mo_solution o).

Definition torque_settings : TrackSettings :=
  mkTrackSettings (Some 0.81) (Some 1.65) (Some 0.05) (Some 10) None.

Definition muscle_settings : TrackSettings :=
  mkTrackSettings (Some 0.81) (Some 1.65) (Some 0.08) None (Some 10).

Local Close Scope Q_scope.

(** [l1] is an initial segment of [l2]. *)
Definition Prefix {T : Type} (l1 l2 : list T) : Prop :=
  exists rest, l2 = l1 ++ rest.

(** ** Toolkits to run the program against *)

Module Demo.

(** The paths of the actuators of a small model, by object identity. *)
Definition path_of (id : nat) : string :=
  match id with
  | 0 => "/forceset/pelvis_tx"
  | 1 => "/forceset/reserve_jointset_hip_r_hip_flexion_r"
  | 2 => "/forceset/pelvis_tilt"
  | _ => "/forceset/reserve_jointset_walker_knee_l_knee_angle_l"
  end.

(** A toolkit that never throws.  Its state counts the objects it made;
    its solves report failure. *)
Definition quiet : Toolkit nat := fun c n =>
  match c return (Exception + Result c) * nat with
  | MocoTrack_new => (inr (mkObj CMocoTrack n), S n)
  | MocoTrack_solve _ _ => (inr (mkMocoSolution false n), S n)
  | MocoTrack_initialize _ => (inr (mkObj CMocoStudy n), S n)
  | updProblem _ => (inr (mkObj CMocoProblem n), S n)
  | updGoal _ _ => (inr (mkObj CMocoGoal n), S n)
  | dynamic_cast_MocoControlGoal goal =>
      (inr (mkObj CMocoControlGoal (obj_id goal)), n)
  | ModelProcessor_process _ => (inr (mkObj CModel n), S n)
  | getComponentList_CoordinateActuator _ =>
      (inr (map (mkObj CCoordinateActuator) [0; 1; 2; 3]), n)
  | getAbsolutePathString coordAct => (inr (path_of (obj_id coordAct)), n)
  | MocoStudy_solve _ => (inr (mkMocoSolution false n), S n)
  | _ => (inr tt, n)
  end.

(** The same toolkit, except that processing a model throws. *)
Definition failing : Toolkit nat := fun c n =>
  match c return (Exception + Result c) * nat with
  | ModelProcessor_process _ => (inl (mkException "cannot open model file"), n)
  | c' => quiet c' n
  end.

End Demo.

(** ** Entries, objects and tools of a run *)

(** A call the toolkit answered. *)
Definition answer (c : Call) (r : Result c) : Entry := mkEntry c (inr r).

(** The entries of a returning run of the torque-driven procedure. *)
Definition torque_entries (track : MocoTrack) (solution : MocoSolution) : Trace :=
  [ answer MocoTrack_new track;
    answer (setName track "torque_driven_marker_tracking") tt;
    answer (setModel track torque_modelProcessor) tt;
    answer (setMarkersReferenceFromTRC track "marker_trajectories.trc") tt;
    answer (set_allow_unused_references track true) tt;
    answer (set_markers_global_tracking_weight track 10%Q) tt;
    answer (set_markers_weight_set track markerWeights) tt;
    answer (set_initial_time track 0.81%Q) tt;
    answer (set_final_time track 1.65%Q) tt;
    answer (set_mesh_interval track 0.05%Q) tt;
    answer (MocoTrack_solve track true) solution ].

(** The entries of the loop when it runs to its end. *)
Definition loop_entries (effort : MocoControlGoal)
    (aps : list (CoordinateActuator * string)) : Trace :=
  flat_map (fun ap =>
    answer (getAbsolutePathString (fst ap)) (snd ap) ::
    if has_pelvis (snd ap)
    then [answer (setWeightForControl effort (snd ap) 10%Q) tt]
    else [])
    aps.

(** The entries of a run of the muscle-driven procedure up to its solve. *)
Definition muscle_entries_before_solve (o : MuscleObjects) : Trace :=
  [ answer MocoTrack_new (mo_track o);
    answer (setName (mo_track o) "muscle_driven_state_tracking") tt;
    answer (setModel (mo_track o) muscle_modelProcessor) tt;
    answer (setStatesReference (mo_track o) (TableProcessor_file "coordinates.sto")) tt;
    answer (set_states_global_tracking_weight (mo_track o) 10%Q) tt;
    answer (set_allow_unused_references (mo_track o) true) tt;
    answer (set_track_reference_position_derivatives (mo_track o) true) tt;
    answer (set_initial_time (mo_track o) 0.81%Q) tt;
    answer (set_final_time (mo_track o) 1.65%Q) tt;
    answer (set_mesh_interval (mo_track o) 0.08%Q) tt;
    answer (MocoTrack_initialize (mo_track o)) (mo_moco o);
    answer (updProblem (mo_moco o)) (mo_problem o);
    answer (updGoal (mo_problem o) "control_effort") (mo_goal o);
    answer (dynamic_cast_MocoControlGoal (mo_goal o)) (mo_effort o);
    answer (ModelProcessor_process muscle_modelProcessor) (mo_model o);
    answer (getComponentList_CoordinateActuator (mo_model o)) (map fst (mo_paths o)) ]
  ++ loop_entries (mo_effort o) (mo_paths o).

(** The entries of a returning run of the muscle-driven procedure. *)
Definition muscle_entries (o : MuscleObjects) : Trace :=
  muscle_entries_before_solve o
  ++ [ answer (MocoStudy_solve (mo_moco o)) (mo_solution o);
       answer (MocoStudy_visualize (mo_moco o) (mo_solution o)) tt ].

(** The weights a run is to have set so far, from the goals the cast handed
    back and the paths the actuators answered. *)
Definition weights_due (tr : Trace) : list (MocoControlGoal * string * Q) :=
  flat_map (fun effort =>
    map (fun ap => (effort, snd ap, 10%Q))
        (filter (fun ap => has_pelvis (snd ap)) (path_answers tr)))
    (control_goals tr).

(** [pat] occurs in [s] at offset [n]. *)
Definition occurs_at (s pat : string) (n : nat) : Prop :=
  exists pre post : string,
    s = (pre ++ pat ++ post)%string /\ String.length pre = n.

(** An object by class and identity. *)
Definition obj_key {c : Class} (o : Obj c) : Class * nat := (c, obj_id o).

(** The toolkit objects a call is made on or passes. *)
Definition objects_used (c : Call) : list (Class * nat) :=
  match c with
  | MocoTrack_new => []
  | setName t _ | setModel t _ | setMarkersReferenceFromTRC t _
  | setStatesReference t _ | set_allow_unused_references t _
  | set_track_reference_position_derivatives t _
  | set_markers_global_tracking_weight t _
  | set_states_global_tracking_weight t _ | set_markers_weight_set t _
  | set_initial_time t _ | set_final_time t _ | set_mesh_interval t _
  | MocoTrack_solve t _ | MocoTrack_initialize t => [obj_key t]
  | updProblem moco | MocoStudy_solve moco | MocoStudy_visualize moco _ =>
      [obj_key moco]
  | updGoal problem _ => [obj_key problem]
  | dynamic_cast_MocoControlGoal goal => [obj_key goal]
  | ModelProcessor_process _ => []
  | getComponentList_CoordinateActuator model => [obj_key model]
  | getAbsolutePathString coordAct => [obj_key coordAct]
  | setWeightForControl effort _ _ => [obj_key effort]
  end.

(** The toolkit objects an answer hands to the program. *)
Definition objects_given (e : Entry) : list (Class * nat) :=
  match e with
  | mkEntry c r =>
      match c return Exception + Result c -> list (Class * nat) with
      | MocoTrack_new | MocoTrack_initialize _ | updProblem _ | updGoal _ _
      | dynamic_cast_MocoControlGoal _ | ModelProcessor_process _ =>
          fun r => match r with inr o => [obj_key o] | inl _ => [] end
      | getComponentList_CoordinateActuator _ =>
          fun r => match r with inr l => map obj_key l | inl _ => [] end
      | _ => fun _ => []
      end r
  end.

(** Every call of [tr] uses only objects in [known] or handed over by an
    earlier answer of [tr]. *)
Fixpoint scoped (known : list (Class * nat)) (tr : Trace) : Prop :=
  match tr with
  | [] => True
  | e :: tr' =>
      incl (objects_used (call e)) known /\
      scoped (known ++ objects_given e) tr'
  end.

(** The solutions handed to [moco.visualize]. *)
Definition visualized (c : Call) : list MocoSolution :=
  match c with
  | MocoStudy_visualize _ solution => [solution]
  | _ => []
  end.

(** [MocoTrack track;]. *)
Definition is_new_tool (c : Call) : bool :=
  match c with
  | MocoTrack_new => true
  | _ => false
  end.

Definition tools_constructed (cs : list Call) : nat :=
  List.length (filter is_new_tool cs).

(** The tools used by the calls that come after the first build. *)
Fixpoint tracks_used_after_build (cs : list Call) : list MocoTrack :=
  match cs with
  | [] => []
  | c :: cs' =>
      match build_target c with
      | Some _ => tracks_used cs'
      | None => tracks_used_after_build cs'
      end
  end.

(** The study [track.initialize()] handed back, with the tool. *)
Definition study_initialized (e : Entry) : list (MocoTrack * MocoStudy) :=
  match e with
  | mkEntry c r =>
      match c return Exception + Result c -> list (MocoTrack * MocoStudy) with
      | MocoTrack_initialize track =>
          fun r => match r with inr moco => [(track, moco)] | inl _ => [] end
      | _ => fun _ => []
      end r
  end.

Definition studies_initialized (tr : Trace) : list (MocoTrack * MocoStudy) :=
  flat_map study_initialized tr.

(** The problem [moco.updProblem()] handed back, with the study. *)
Definition problem_taken (e : Entry) : list (MocoStudy * MocoProblem) :=
  match e with
  | mkEntry c r =>
      match c return Exception + Result c -> list (MocoStudy * MocoProblem) with
      | updProblem moco =>
          fun r => match r with inr problem => [(moco, problem)] | inl _ => [] end
      | _ => fun _ => []
      end r
  end.

Definition problems_taken (tr : Trace) : list (MocoStudy * MocoProblem) :=
  flat_map problem_taken tr.

(** The goal [problem.updGoal(name)] handed back, with the problem and the
    name asked for. *)
Definition goal_taken (e : Entry) : list (MocoProblem * string * MocoGoal) :=
  match e with
  | mkEntry c r =>
      match c return Exception + Result c ->
                     list (MocoProblem * string * MocoGoal) with
      | updGoal problem name =>
          fun r => match r with
                   | inr goal => [(problem, name, goal)]
                   | inl _ => []
                   end
      | _ => fun _ => []
      end r
  end.

Definition goals_taken (tr : Trace) : list (MocoProblem * string * MocoGoal) :=
  flat_map goal_taken tr.

(** The control goal [dynamic_cast<MocoControlGoal&>(goal)] handed back, with
    the goal cast. *)
Definition goal_cast (e : Entry) : list (MocoGoal * MocoControlGoal) :=
  match e with
  | mkEntry c r =>
      match c return Exception + Result c -> list (MocoGoal * MocoControlGoal) with
      | dynamic_cast_MocoControlGoal goal =>
          fun r => match r with inr effort => [(goal, effort)] | inl _ => [] end
      | _ => fun _ => []
      end r
  end.

Definition goals_cast (tr : Trace) : list (MocoGoal * MocoControlGoal) :=
  flat_map goal_cast tr.

Module Faulty.

(** The toolkit of [Demo.quiet], except that the path of the third actuator
    cannot be read. *)
Definition mid_loop : Toolkit nat := fun c n =>
  match c return (Exception + Result c) * nat with
  | getAbsolutePathString coordAct =>
      if Nat.eqb (obj_id coordAct) 2
      then (inl (mkException "no such component"), n)
      else Demo.quiet (getAbsolutePathString coordAct) n
  | c' => Demo.quiet c' n
  end.

End Faulty.

(** ** What the procedures are to satisfy *)

(** The weighting of line 176 is made on the control-effort goal and follows
    the test of line 175 on every actuator of the processed model.  The goal
    weighted is the one the cast of line 167 made of the goal that
    [updGoal("control_effort")] handed back for the problem of the study that
    [track.initialize()] returned; no other goal is looked up or cast.  The
    model is the one made of the procedure's processor, every actuator listed
    for it is asked for its path, and the weights set are, in order, 10 on
    that goal for each path that has "pelvis" in it. *)
Definition weights_follow_pelvis (tr : Trace) : Prop :=
  exists (track : MocoTrack) (moco : MocoStudy) (problem : MocoProblem)
         (goal : MocoGoal) (effort : MocoControlGoal) (model : Model)
         (coordActs : list CoordinateActuator),
    studies_initialized tr = [(track, moco)] /\
    problems_taken tr = [(moco, problem)] /\
    goals_taken tr = [(problem, "control_effort", goal)] /\
    goals_cast tr = [(goal, effort)] /\
    control_goals tr = [effort] /\
    models_processed tr = [(muscle_modelProcessor, model)] /\
    component_lists tr = [(model, coordActs)] /\
    path_queries (calls tr) = coordActs /\
    map fst (path_answers tr) = coordActs /\
    weights_set (calls tr) =
      map (fun ap => (effort, snd ap, 10%Q))
          (filter (fun ap => has_pelvis (snd ap)) (path_answers tr)) /\
    (forall coordAct path, In (coordAct, path) (path_answers tr) ->
       (In (effort, path, 10%Q) (weights_set (calls tr)) <->
        contains path "pelvis")) /\
    (forall goal' controlName weight,
       In (goal', controlName, weight) (weights_set (calls tr)) ->
       goal' = effort /\ weight = 10%Q /\ contains controlName "pelvis" /\
       exists coordAct, In (coordAct, controlName) (path_answers tr)).



(** The marker weights by side-free name. *)
Definition marker_pairs : list (string * Q) :=
  [("ASIS", 20%Q); ("PSIS", 20%Q); ("Knee", 10%Q); ("Ankle", 10%Q);
   ("Heel", 10%Q); ("MT5", 5%Q); ("Toe", 2%Q)].

(** Which object of one run stands for which object of another: class,
    identity in the first run, identity in the second. *)
Definition Renaming : Type := list (Class * nat * nat).

Definition corresponds (rho : Renaming) (k1 k2 : Class * nat) : Prop :=
  fst k1 = fst k2 /\ In (fst k1, snd k1, snd k2) rho.

(** No object stands for two objects, and no two for one. *)
Definition one_to_one (rho : Renaming) : Prop :=
  forall (c : Class) (i j i' j' : nat),
    In (c, i, j) rho -> In (c, i', j') rho -> (i = i' <-> j = j').

Definition nobody (c : Class) : Obj c := mkObj c 0.

(** A call with the identities of its objects and of its solution blanked. *)
Definition anonymous (c : Call) : Call :=
  match c with
  | MocoTrack_new => MocoTrack_new
  | setName _ name => setName (nobody _) name
  | setModel _ model => setModel (nobody _) model
  | setMarkersReferenceFromTRC _ filepath =>
      setMarkersReferenceFromTRC (nobody _) filepath
  | setStatesReference _ states => setStatesReference (nobody _) states
  | set_allow_unused_references _ value =>
      set_allow_unused_references (nobody _) value
  | set_track_reference_position_derivatives _ value =>
      set_track_reference_position_derivatives (nobody _) value
  | set_markers_global_tracking_weight _ weight =>
      set_markers_global_tracking_weight (nobody _) weight
  | set_states_global_tracking_weight _ weight =>
      set_states_global_tracking_weight (nobody _) weight
  | set_markers_weight_set _ weights => set_markers_weight_set (nobody _) weights
  | set_initial_time _ time => set_initial_time (nobody _) time
  | set_final_time _ time => set_final_time (nobody _) time
  | set_mesh_interval _ interval => set_mesh_interval (nobody _) interval
  | MocoTrack_solve _ visualize => MocoTrack_solve (nobody _) visualize
  | MocoTrack_initialize _ => MocoTrack_initialize (nobody _)
  | updProblem _ => updProblem (nobody _)
  | updGoal _ name => updGoal (nobody _) name
  | dynamic_cast_MocoControlGoal _ => dynamic_cast_MocoControlGoal (nobody _)
  | ModelProcessor_process modelProcessor => ModelProcessor_process modelProcessor
  | getComponentList_CoordinateActuator _ =>
      getComponentList_CoordinateActuator (nobody _)
  | getAbsolutePathString _ => getAbsolutePathString (nobody _)
  | setWeightForControl _ controlName weight =>
      setWeightForControl (nobody _) controlName weight
  | MocoStudy_solve _ => MocoStudy_solve (nobody _)
  | MocoStudy_visualize _ solution =>
      MocoStudy_visualize (nobody _)
        (mkMocoSolution (solution_success solution) 0)
  end.

(** What an answer tells besides objects: a path, or whether a solve
    succeeded. *)
Definition data_given (e : Entry) : list (string + bool) :=
  match e with
  | mkEntry c r =>
      match c return Exception + Result c -> list (string + bool) with
      | getAbsolutePathString _ =>
          fun r => match r with inr p => [inl p] | inl _ => [] end
      | MocoTrack_solve _ _ | MocoStudy_solve _ =>
          fun r => match r with
                   | inr sol => [inr (solution_success sol)]
                   | inl _ => []
                   end
      | _ => fun _ => []
      end r
  end.

(** The same call, on objects that stand for each other. *)
Definition calls_correspond (rho : Renaming) (c1 c2 : Call) : Prop :=
  anonymous c1 = anonymous c2 /\
  Forall2 (corresponds rho) (objects_used c1) (objects_used c2).

(** The same answer: the same exception, or objects that stand for each
    other and the same data. *)
Definition answers_correspond (rho : Renaming) (e1 e2 : Entry) : Prop :=
  thrown_by e1 = thrown_by e2 /\
  Forall2 (corresponds rho) (objects_given e1) (objects_given e2) /\
  data_given e1 = data_given e2.

Definition entries_correspond (rho : Renaming) (e1 e2 : Entry) : Prop :=
  calls_correspond rho (call e1) (call e2) /\ answers_correspond rho e1 e2.

(** Two runs that make the same calls, get the same answers and end the
    same way, up to a one-to-one renaming of the toolkit's objects. *)
Definition runs_correspond {S A : Type} (r1 r2 : Run S A) : Prop :=
  exists rho : Renaming,
    one_to_one rho /\
    Forall2 (entries_correspond rho) (trace r1) (trace r2) /\
    outcome r1 = outcome r2.

(** A toolkit that, from states in [Inv], answers corresponding calls with
    corresponding answers, keeps the renaming one-to-one and stays in
    [Inv]. *)
Definition answers_alike {S : Type} (h : Toolkit S)
    (Inv : Renaming -> S -> S -> Prop) : Prop :=
  forall (rho : Renaming) (s1 s2 : S) (c1 c2 : Call),
    one_to_one rho -> Inv rho s1 s2 -> calls_correspond rho c1 c2 ->
    exists rho',
      incl rho rho' /\
      answers_correspond rho' (mkEntry c1 (fst (h c1 s1)))
                              (mkEntry c2 (fst (h c2 s2))) /\
      one_to_one rho' /\
      Inv rho' (snd (h c1 s1)) (snd (h c2 s2)).

(** Two programs that make corresponding calls as long as they get
    corresponding answers: they use the toolkit's objects only as handed
    over, never by identity. *)
Fixpoint in_step {A : Type} (rho : Renaming) (p1 p2 : Prog A) : Prop :=
  match p1, p2 with
  | Ret a1, Ret a2 => a1 = a2
  | Vis c1 k1, Vis c2 k2 =>
      calls_correspond rho c1 c2 /\
      forall (rho' : Renaming) (r1 : Result c1) (r2 : Result c2),
        incl rho rho' ->
        answers_correspond rho' (mkEntry c1 (inr r1)) (mkEntry c2 (inr r2)) ->
        in_step rho' (k1 r1) (k2 r2)
  | _, _ => False
  end.

(** For [Demo.quiet], whose state counts the objects made: corresponding
    actuators are the same actuator, corresponding control goals are casts
    of corresponding goals, and every other object was made before. *)
Definition quiet_inv (rho : Renaming) (n1 n2 : nat) : Prop :=
  forall (c : Class) (i j : nat),
    In (c, i, j) rho ->
    (c = CCoordinateActuator /\ i = j) \/
    (c = CMocoControlGoal /\ In (CMocoGoal, i, j) rho) \/
    (c <> CCoordinateActuator /\ c <> CMocoControlGoal /\ i < n1 /\ j < n2).

(** A run makes one tool and makes its tool calls on that one only. *)
Definition own_tool_only (tr : Trace) : Prop :=
  exists track : MocoTrack,
    tracks_made tr = [track] /\
    forall t, In t (tracks_used (calls tr)) -> t = track.

(** * Properties *)

(** ** std::string::find finds substrings *)

Lemma starts_with_iff (pat s : string) :
  StdString.starts_with pat s = true <-> exists post, s = (pat ++ post)%string.
Proof.
  revert s. induction pat as [|a pat IH]; intros s; simpl.
  - split; [intros _; exists s; reflexivity | reflexivity].
  - destruct s as [|b s].
    + split; [discriminate | intros [post H]; discriminate].
    + rewrite andb_true_iff, Ascii.eqb_eq, IH. split.
      * intros [-> [post ->]]. exists post. reflexivity.
      * intros [post H]. injection H as -> ->. split; [reflexivity | now exists post].
Qed.

Lemma contains_here (pat s : string) :
  StdString.starts_with pat s = true -> contains s pat.
Proof.
  intros H. apply starts_with_iff in H as [post ->].
  exists EmptyString, post. reflexivity.
Qed.

Lemma contains_later (a : ascii) (pat s : string) :
  contains s pat -> contains (String a s) pat.
Proof.
  intros (pre & post & ->). exists (String a pre), post. reflexivity.
Qed.

Lemma contains_inv (pat s : string) :
  contains s pat ->
  StdString.starts_with pat s = true \/
  exists a s', s = String a s' /\ contains s' pat.
Proof.
  intros (pre & post & ->). destruct pre as [|a pre]; simpl.
  - left. apply starts_with_iff. now exists post.
  - right. exists a, (pre ++ pat ++ post)%string. split; [reflexivity|].
    now exists pre, post.
Qed.

Lemma find_from_found (s pat : string) (pos : nat) :
  StdString.found (StdString.find_from s pat pos) = true <-> contains s pat.
Proof.
  revert pos. induction s as [|a s IH]; intros pos; simpl.
  - destruct (StdString.starts_with pat "") eqn:E; simpl.
    + split; [intros _; now apply contains_here | reflexivity].
    + split; [discriminate|]. intros H.
      apply contains_inv in H as [H | (b & s' & H & _)]; congruence.
  - destruct (StdString.starts_with pat (String a s)) eqn:E; simpl.
    + split; [intros _; now apply contains_here | reflexivity].
    + rewrite IH. split; [apply contains_later|]. intros H.
      apply contains_inv in H as [H | (b & s' & H & Hc)]; [congruence|].
      now injection H as -> ->.
Qed.

Lemma has_pelvis_iff (coordPath : string) :
  has_pelvis coordPath = true <-> contains coordPath "pelvis".
Proof. apply find_from_found. Qed.

Example find_pelvis_tx :
  StdString.find "/forceset/pelvis_tx" "pelvis" = Some 10.
Proof. reflexivity. Qed.

Example find_hip_flexion :
  StdString.find "/forceset/reserve_jointset_hip_r_hip_flexion_r" "pelvis" = None.
Proof. reflexivity. Qed.

Example find_is_case_sensitive :
  has_pelvis "/forceset/Pelvis_tx" = false.
Proof. reflexivity. Qed.

(** ** Initial segments *)

Lemma Prefix_refl {T : Type} (l : list T) : Prefix l l.
Proof. exists []. now rewrite app_nil_r. Qed.

Lemma Prefix_app_r {T : Type} (l1 l2 l3 : list T) :
  Prefix l1 l2 -> Prefix l1 (l2 ++ l3).
Proof. intros [r ->]. exists (r ++ l3). now rewrite app_assoc. Qed.

Lemma Prefix_app_l {T : Type} (l l1 l2 : list T) :
  Prefix l1 l2 -> Prefix (l ++ l1) (l ++ l2).
Proof. intros [r ->]. exists r. now rewrite app_assoc. Qed.

Lemma Prefix_cons {T : Type} (x : T) (l1 l2 : list T) :
  Prefix l1 l2 -> Prefix (x :: l1) (x :: l2).
Proof. apply (Prefix_app_l [x]). Qed.

Lemma Prefix_filter_length {T : Type} (f : T -> bool) (l1 l2 : list T) :
  Prefix l1 l2 -> List.length (filter f l1) <= List.length (filter f l2).
Proof. intros [r ->]. rewrite filter_app, length_app. lia. Qed.

Lemma Prefix_flat_map_incl {T U : Type} (f : T -> list U) (l1 l2 : list T) :
  Prefix l1 l2 -> incl (flat_map f l1) (flat_map f l2).
Proof. intros [r ->]. rewrite flat_map_app. apply incl_appl, incl_refl. Qed.

(** ** Runs *)

Section Runs.

Variable S : Type.
Variable h : Toolkit S.

(** Sequencing: the second part runs from where the first returned, and
    does not run when the first threw. *)
Lemma run_bind (A B : Type) (p : Prog A) (f : A -> Prog B) (s : S) :
  run h (bind p f) s =
  match outcome (run h p s) with
  | Returned a =>
      let r2 := run h (f a) (final (run h p s)) in
      mkRun (outcome r2) (final r2) (trace (run h p s) ++ trace r2)
  | Thrown e => mkRun (Thrown e) (final (run h p s)) (trace (run h p s))
  end.
Proof.
  revert s. induction p as [a | c k IH]; intros s; simpl.
  - now destruct (run h (f a) s).
  - destruct (h c s) as [[e | r] s']; simpl; [reflexivity|].
    rewrite IH. destruct (run h (k r) s') as [[a | e] s'' tr]; simpl.
    + now destruct (run h (f a) s'').
    + reflexivity.
Qed.

(** A run that returns had every call answered. *)
Lemma run_returned_answered (A : Type) (p : Prog A) (s : S) (a : A) :
  outcome (run h p s) = Returned a ->
  forallb answered (trace (run h p s)) = true.
Proof.
  revert s. induction p as [a' | c k IH]; intros s; simpl; [reflexivity|].
  destruct (h c s) as [[e | r] s']; simpl; [discriminate|].
  specialize (IH r s'). destruct (run h (k r) s'); simpl in *. apply IH.
Qed.

(** A run that throws ends with the call that threw, and the exception
    that leaves the program is the one that call raised. *)
Lemma run_thrown_last (A : Type) (p : Prog A) (s : S) (e : Exception) :
  outcome (run h p s) = Thrown e ->
  exists tr c,
    trace (run h p s) = tr ++ [mkEntry c (inl e)] /\
    forallb answered tr = true.
Proof.
  revert s. induction p as [a' | c k IH]; intros s; simpl; [discriminate|].
  destruct (h c s) as [[e' | r] s']; simpl.
  - intros [= ->]. now exists [], c.
  - specialize (IH r s'). destruct (run h (k r) s') as [o s'' tr0]; simpl in *.
    intros H. destruct (IH H) as (tr & c' & -> & Htr).
    now exists (mkEntry c (inr r) :: tr), c'.
Qed.

End Runs.

(** ** The calls of every run *)

Section Shapes.

Variable S : Type.
Variable h : Toolkit S.

(** Take the next call of the program and split on what the toolkit does. *)
Ltac toolkit_answers :=
  cbn [run bind trigger];
  match goal with
  | |- context [h ?c ?s] => destruct (h c s) as [[?ex | ?r] ?s']
  end.

(** The loop asks each actuator of the list for its path, in order, and
    after each answer that has "pelvis" in it sets that control's weight. *)
Lemma loop_shape (effort : MocoControlGoal)
    (coordActs : list CoordinateActuator) (s : S) :
  let r := run h (pelvis_loop effort coordActs) s in
  exists aps,
    Prefix (calls (trace r)) (loop_calls effort aps) /\
    component_lists (trace r) = [] /\
    control_goals (trace r) = [] /\
    solutions (trace r) = [] /\
    tracks_made (trace r) = [] /\
    models_processed (trace r) = [] /\
    (outcome r = Returned tt ->
     aps = path_answers (trace r) /\
     calls (trace r) = loop_calls effort aps /\
     map fst aps = coordActs).
Proof.
  revert s. induction coordActs as [|a acts IH]; intros s.
  - exists []. cbn. repeat split; try reflexivity. apply Prefix_refl.
  - unfold pelvis_loop. cbn [for_each].
    toolkit_answers.
    + exists [(a, ""%string)]. cbn.
      repeat split; try discriminate. apply Prefix_refl.
    + destruct (has_pelvis r) eqn:Hp.
      * toolkit_answers.
        -- exists [(a, r)]. cbn. rewrite Hp.
           repeat split; try discriminate. apply Prefix_refl.
        -- cbn [bind].
           match goal with
           | |- context [run h ?p s'0] => change p with (pelvis_loop effort acts)
           end.
           destruct (IH s'0) as (aps & Hpre & Hc & Hg & Hs & Ht & Hm & Hret).
           destruct (run h (pelvis_loop effort acts) s'0) as [o s2 tr].
           exists ((a, r) :: aps). cbn in *. rewrite Hp. cbn.
           repeat split; auto.
           ++ now do 2 apply Prefix_cons.
           ++ f_equal. now apply Hret.
           ++ do 2 f_equal. now apply Hret.
           ++ f_equal. now apply Hret.
      * cbn [bind].
        match goal with
        | |- context [run h ?p s'] => change p with (pelvis_loop effort acts)
        end.
        destruct (IH s') as (aps & Hpre & Hc & Hg & Hs & Ht & Hm & Hret).
        destruct (run h (pelvis_loop effort acts) s') as [o s2 tr].
        exists ((a, r) :: aps). cbn in *. rewrite Hp. cbn.
        repeat split; auto.
        ++ now apply Prefix_cons.
        ++ f_equal. now apply Hret.
        ++ f_equal. now apply Hret.
        ++ f_equal. now apply Hret.
Qed.

(** Every run of the torque-driven procedure makes an initial segment of
    [torque_calls], and all of them when it returns. *)
Lemma torque_shape (s : S) :
  let r := run h torqueDrivenMarkerTracking s in
  exists track,
    Prefix (calls (trace r)) (torque_calls track) /\
    (outcome r = Returned tt ->
     calls (trace r) = torque_calls track /\ tracks_made (trace r) = [track]).
Proof.
  unfold torqueDrivenMarkerTracking.
  toolkit_answers.
  { exists (mkObj CMocoTrack 0).
    split; [now exists (tl (torque_calls (mkObj CMocoTrack 0))) | discriminate]. }
  exists r.
  repeat (toolkit_answers;
          [ split; [eexists; reflexivity | discriminate] | ]).
  cbn. split; [apply Prefix_refl | split; reflexivity].
Qed.

(** Every run of the muscle-driven procedure makes an initial segment of
    [muscle_calls], and all of them when it returns; the objects and paths
    in the calls are the ones the toolkit handed back. *)
Lemma muscle_shape (s : S) :
  let r := run h muscleDrivenStateTracking s in
  exists o : MuscleObjects,
    Prefix (calls (trace r)) (muscle_calls o) /\
    (outcome r = Returned tt ->
     calls (trace r) = muscle_calls o /\
     path_answers (trace r) = mo_paths o /\
     component_lists (trace r) = [(mo_model o, map fst (mo_paths o))] /\
     models_processed (trace r) = [(muscle_modelProcessor, mo_model o)] /\
     control_goals (trace r) = [mo_effort o] /\
     solutions (trace r) = [mo_solution o] /\
     tracks_made (trace r) = [mo_track o]).
Proof.
  unfold muscleDrivenStateTracking.
  do 16 (toolkit_answers;
    [ eexists (mkMuscleObjects _ _ _ _ _ _ _ _);
      split; [eexists; cbn; reflexivity | discriminate] | ]).
  cbn [run bind trigger].
  rewrite run_bind.
  match goal with
  | |- context [run h (pelvis_loop ?e ?l) ?s0] =>
      destruct (loop_shape e l s0) as (aps & Hpre & Hc & Hg & Hs & Ht & Hm & Hret);
      destruct (run h (pelvis_loop e l) s0) as [[[] | ex] s17 tr]
  end; cbn [outcome final trace] in *.
  - destruct (Hret eq_refl) as (Haps & Hcalls & Hacts).
    toolkit_answers.
    + eexists (mkMuscleObjects _ _ _ _ _ _ aps (mkMocoSolution false 0)).
      split; [|discriminate].
      cbn. unfold calls in *. rewrite map_app, Hcalls.
      eexists. unfold muscle_calls. cbn. rewrite <- app_assoc. reflexivity.
    + toolkit_answers.
      * eexists (mkMuscleObjects _ _ _ _ _ _ aps _).
        split; [|discriminate].
        cbn. unfold calls in *. rewrite map_app, Hcalls.
        eexists. unfold muscle_calls. cbn. rewrite <- app_assoc. cbn.
        reflexivity.
      * eexists (mkMuscleObjects _ _ _ _ _ _ aps _).
        cbn.
        unfold calls, path_answers, component_lists, control_goals, solutions,
          tracks_made, models_processed in *.
        rewrite map_app, !flat_map_app, Hcalls, Hc, Hg, Hs, Ht, Hm, <- Haps, Hacts.
        split; [eexists; unfold muscle_calls; cbn; now rewrite app_nil_r|].
        intros _. cbn. rewrite app_nil_r. repeat split; reflexivity.
  - eexists (mkMuscleObjects _ _ _ _ _ _ aps (mkMocoSolution false 0)).
    split; [|discriminate].
    cbn. unfold muscle_calls. cbn.
    do 16 apply Prefix_cons. apply Prefix_app_r. exact Hpre.
  Unshelve.
  all: first [exact (mkObj _ 0) | exact nil | exact (mkMocoSolution false 0)].
Qed.

(** The driver: the second procedure runs from where the first returned;
    an exception of either ends the run. *)
Lemma main_run (s : S) :
  run h main s =
  let r1 := run h torqueDrivenMarkerTracking s in
  match outcome r1 with
  | Returned _ =>
      let r2 := run h muscleDrivenStateTracking (final r1) in
      match outcome r2 with
      | Returned _ =>
          mkRun (Returned EXIT_SUCCESS) (final r2) (trace r1 ++ trace r2)
      | Thrown e => mkRun (Thrown e) (final r2) (trace r1 ++ trace r2)
      end
  | Thrown e => mkRun (Thrown e) (final r1) (trace r1)
  end.
Proof.
  unfold main. rewrite run_bind. cbn zeta.
  destruct (outcome (run h torqueDrivenMarkerTracking s)); [|reflexivity].
  rewrite run_bind.
  destruct (outcome (run h muscleDrivenStateTracking _)); cbn;
    [now rewrite app_nil_r | reflexivity].
Qed.

End Shapes.

(** ** What the loop's calls show *)

Lemma loop_calls_cons (effort : MocoControlGoal) (a : CoordinateActuator)
    (p : string) (aps : list (CoordinateActuator * string)) :
  loop_calls effort ((a, p) :: aps) =
  (getAbsolutePathString a ::
   if has_pelvis p then [setWeightForControl effort p 10%Q] else []) ++
  loop_calls effort aps.
Proof. reflexivity. Qed.

Ltac by_loop_induction aps :=
  let a := fresh "a" in
  let p := fresh "p" in
  let IH := fresh "IH" in
  induction aps as [|[a p] aps IH]; [reflexivity|];
  rewrite loop_calls_cons;
  first [rewrite flat_map_app | rewrite filter_app];
  rewrite IH; cbn; destruct (has_pelvis p); reflexivity.

Lemma loop_calls_weights (effort : MocoControlGoal)
    (aps : list (CoordinateActuator * string)) :
  weights_set (loop_calls effort aps) =
  map (fun ap => (effort, snd ap, 10%Q))
      (filter (fun ap => has_pelvis (snd ap)) aps).
Proof. unfold weights_set. by_loop_induction aps. Qed.

Lemma loop_calls_queries (effort : MocoControlGoal)
    (aps : list (CoordinateActuator * string)) :
  path_queries (loop_calls effort aps) = map fst aps.
Proof. unfold path_queries. by_loop_induction aps. Qed.

Lemma loop_calls_no_solve (effort : MocoControlGoal)
    (aps : list (CoordinateActuator * string)) :
  filter is_solve (loop_calls effort aps) = [].
Proof. by_loop_induction aps. Qed.



Lemma loop_calls_no_file (effort : MocoControlGoal)
    (aps : list (CoordinateActuator * string)) :
  input_files (loop_calls effort aps) = [].
Proof. unfold input_files. by_loop_induction aps. Qed.



Lemma loop_calls_no_model (effort : MocoControlGoal)
    (aps : list (CoordinateActuator * string)) :
  models_set (loop_calls effort aps) = [].
Proof. unfold models_set. by_loop_induction aps. Qed.

Lemma loop_calls_no_track (effort : MocoControlGoal)
    (aps : list (CoordinateActuator * string)) :
  tracks_used (loop_calls effort aps) = [].
Proof. unfold tracks_used. by_loop_induction aps. Qed.

(** ** What the muscle-driven procedure's calls show *)

Lemma muscle_calls_weights (o : MuscleObjects) :
  weights_set (muscle_calls o) =
  map (fun ap => (mo_effort o, snd ap, 10%Q))
      (filter (fun ap => has_pelvis (snd ap)) (mo_paths o)).
Proof.
  unfold muscle_calls, weights_set. rewrite !flat_map_app.
  fold (weights_set (loop_calls (mo_effort o) (mo_paths o))).
  rewrite loop_calls_weights. cbn. now rewrite app_nil_r.
Qed.

Lemma muscle_calls_queries (o : MuscleObjects) :
  path_queries (muscle_calls o) = map fst (mo_paths o).
Proof.
  unfold muscle_calls, path_queries. rewrite !flat_map_app.
  fold (path_queries (loop_calls (mo_effort o) (mo_paths o))).
  rewrite loop_calls_queries. cbn. now rewrite app_nil_r.
Qed.

Lemma muscle_calls_solve_count (o : MuscleObjects) :
  solve_count (muscle_calls o) = 1.
Proof.
  unfold muscle_calls, solve_count. rewrite !filter_app, loop_calls_no_solve.
  reflexivity.
Qed.




Lemma muscle_calls_models (o : MuscleObjects) :
  models_set (muscle_calls o) = [muscle_modelProcessor].
Proof.
  unfold muscle_calls. unfold models_set at 1. rewrite !flat_map_app.
  fold (models_set (loop_calls (mo_effort o) (mo_paths o))).
  now rewrite loop_calls_no_model.
Qed.

Lemma muscle_calls_files (o : MuscleObjects) :
  input_files (muscle_calls o) =
  [ (ModelDescription, "subject_walk_armless.osim");
    (GroundReactionForces, "grf_walk.xml");
    (CoordinateData, "coordinates.sto");
    (ModelDescription, "subject_walk_armless.osim");
    (GroundReactionForces, "grf_walk.xml") ].
Proof.
  unfold muscle_calls, input_files. rewrite !flat_map_app.
  fold (input_files (loop_calls (mo_effort o) (mo_paths o))).
  now rewrite loop_calls_no_file.
Qed.

Lemma muscle_calls_tracks (o : MuscleObjects) (t : MocoTrack) :
  In t (tracks_used (muscle_calls o)) -> t = mo_track o.
Proof.
  unfold muscle_calls, tracks_used. rewrite !flat_map_app.
  fold (tracks_used (loop_calls (mo_effort o) (mo_paths o))).
  rewrite loop_calls_no_track. cbn. intuition.
Qed.

Lemma torque_calls_files (track : MocoTrack) :
  input_files (torque_calls track) =
  [ (ModelDescription, "subject_walk_armless.osim");
    (GroundReactionForces, "grf_walk.xml");
    (MarkerTrajectories, "marker_trajectories.trc") ].
Proof. reflexivity. Qed.

(** ** Settings at a build *)

Lemma builds_after_app (before l1 l2 : list Call) :
  builds_after before (l1 ++ l2) =
  builds_after before l1 ++ builds_after (before ++ l1) l2.
Proof.
  revert before. induction l1 as [|c l1 IH]; intros before; cbn.
  - now rewrite app_nil_r.
  - rewrite IH, <- !app_assoc. reflexivity.
Qed.

Lemma builds_after_loop_calls (before : list Call) (effort : MocoControlGoal)
    (aps : list (CoordinateActuator * string)) :
  builds_after before (loop_calls effort aps) = [].
Proof.
  revert before. induction aps as [|[a p] aps IH]; intros before; [reflexivity|].
  rewrite loop_calls_cons, builds_after_app, IH.
  now destruct (has_pelvis p).
Qed.

Lemma Obj_eqb_refl (c : Class) (a : Obj c) : Obj_eqb a a = true.
Proof. apply Nat.eqb_refl. Qed.

Lemma torque_calls_builds (track : MocoTrack) :
  builds (torque_calls track) = [torque_settings].
Proof.
  unfold builds, torque_calls, settings_of. cbn -[Obj_eqb].
  now rewrite !Obj_eqb_refl.
Qed.

Lemma muscle_calls_builds (o : MuscleObjects) :
  builds (muscle_calls o) = [muscle_settings].
Proof.
  unfold builds, muscle_calls.
  rewrite !builds_after_app, builds_after_loop_calls.
  unfold settings_of. cbn -[Obj_eqb]. now rewrite !Obj_eqb_refl.
Qed.

Lemma Prefix_builds (l1 l2 : list Call) :
  Prefix l1 l2 -> incl (builds l1) (builds l2).
Proof.
  intros [rest ->]. unfold builds. rewrite builds_after_app.
  apply incl_appl, incl_refl.
Qed.

(** ** A solve on both sides of the post-processing takes two solves *)


(** ** Runs that correspond up to the identities of objects *)

Lemma corresponds_mono (rho rho' : Renaming) (k1 k2 : Class * nat) :
  incl rho rho' -> corresponds rho k1 k2 -> corresponds rho' k1 k2.
Proof. intros Hi [Hc Hin]. split; [exact Hc | now apply Hi]. Qed.

Lemma Forall2_corresponds_mono (rho rho' : Renaming) (l1 l2 : list (Class * nat)) :
  incl rho rho' ->
  Forall2 (corresponds rho) l1 l2 -> Forall2 (corresponds rho') l1 l2.
Proof.
  intros Hi H. induction H; constructor; auto.
  now apply corresponds_mono with rho.
Qed.

Lemma entries_correspond_mono (rho rho' : Renaming) (e1 e2 : Entry) :
  incl rho rho' -> entries_correspond rho e1 e2 -> entries_correspond rho' e1 e2.
Proof.
  intros Hi [[Ha Hu] (Ht & Hg & Hd)].
  repeat split; auto; now apply Forall2_corresponds_mono with rho.
Qed.

Lemma in_step_mono (A : Type) (p1 p2 : Prog A) (rho rho' : Renaming) :
  incl rho rho' -> in_step rho p1 p2 -> in_step rho' p1 p2.
Proof.
  revert p2 rho rho'. induction p1 as [a1 | c1 k1 IH]; intros [a2 | c2 k2];
    cbn; auto.
  intros rho rho' Hi [[Ha Hu] Hk]. split.
  - split; [exact Ha | now apply Forall2_corresponds_mono with rho].
  - intros rho'' r1 r2 Hi' Hans. apply Hk; [|exact Hans].
    now apply incl_tran with rho'.
Qed.

Lemma in_step_bind (A B : Type) (p1 p2 : Prog A) (f1 f2 : A -> Prog B)
    (rho : Renaming) :
  in_step rho p1 p2 ->
  (forall rho' a, incl rho rho' -> in_step rho' (f1 a) (f2 a)) ->
  in_step rho (bind p1 f1) (bind p2 f2).
Proof.
  revert p2 rho. induction p1 as [a1 | c1 k1 IH]; intros [a2 | c2 k2] rho;
    cbn; try contradiction.
  - intros <- Hf. apply Hf, incl_refl.
  - intros [Hc Hk] Hf. split; [exact Hc|].
    intros rho' r1 r2 Hi Hans. apply IH; [now apply Hk|].
    intros rho'' a Hi'. apply Hf. now apply incl_tran with rho'.
Qed.

Section Correspond.
Variable S : Type.
Variable h : Toolkit S.
Variable Inv : Renaming -> S -> S -> Prop.
Hypothesis Hh : answers_alike h Inv.

Lemma in_step_runs (A : Type) (p1 p2 : Prog A) (rho : Renaming) (s1 s2 : S) :
  in_step rho p1 p2 -> one_to_one rho -> Inv rho s1 s2 ->
  exists rho',
    incl rho rho' /\ one_to_one rho' /\
    Forall2 (entries_correspond rho') (trace (run h p1 s1)) (trace (run h p2 s2)) /\
    outcome (run h p1 s1) = outcome (run h p2 s2) /\
    Inv rho' (final (run h p1 s1)) (final (run h p2 s2)).
Proof.
  revert p2 rho s1 s2. induction p1 as [a1 | c1 k1 IH]; intros [a2 | c2 k2];
    cbn; try contradiction.
  - intros rho s1 s2 <- H1 HI. exists rho.
    split; [apply incl_refl|]. split; [exact H1|]. split; [constructor|].
    split; [reflexivity | exact HI].
  - intros rho s1 s2 [Hc Hk] H1 HI.
    destruct (Hh H1 HI Hc) as (rho1 & Hi1 & Hans & H11 & HI1).
    assert (Hc1 : calls_correspond rho1 c1 c2).
    { destruct Hc as [Ha Hu]. split; [exact Ha|].
      now apply Forall2_corresponds_mono with rho. }
    destruct (h c1 s1) as [[e1 | r1] s1'], (h c2 s2) as [[e2 | r2] s2'];
      cbn [fst snd] in *.
    + assert (Ht := proj1 Hans). cbn in Ht. injection Ht as ->.
      exists rho1. cbn. split; [exact Hi1|]. split; [exact H11|].
      split; [|split].
      * constructor; [|constructor]. now split.
      * reflexivity.
      * exact HI1.
    + destruct Hans as (Ht & _). discriminate.
    + destruct Hans as (Ht & _). discriminate.
    + destruct (IH r1 (k2 r2) rho1 s1' s2' (Hk rho1 r1 r2 Hi1 Hans) H11 HI1)
        as (rho2 & Hi2 & H12 & Htr & Ho & Hf).
      destruct (run h (k1 r1) s1') as [o1 f1 t1], (run h (k2 r2) s2') as [o2 f2 t2].
      cbn in *. exists rho2.
      split; [now apply incl_tran with rho1|]. split; [exact H12|].
      split; [|split; [exact Ho | exact Hf]].
      constructor; [|exact Htr].
      apply entries_correspond_mono with rho1; [exact Hi2|]. now split.
Qed.

End Correspond.

(** ** The procedures use objects only as handed over *)

Ltac lift_known :=
  repeat match goal with
         | Hi : incl ?r ?r', H : corresponds ?r _ _ |- _ =>
             apply (corresponds_mono Hi) in H
         | Hi : incl ?r ?r', H : Forall2 (corresponds ?r) _ _ |- _ =>
             apply (Forall2_corresponds_mono Hi) in H
         end.

Ltac same_objects :=
  cbn [objects_used];
  repeat first [apply Forall2_nil | apply Forall2_cons; [assumption|]].

Ltac same_call := split; [reflexivity | same_objects].

Ltac next_answer :=
  let rho' := fresh "rho" in
  let r1 := fresh "r" in
  let r2 := fresh "r" in
  let Hi := fresh "Hi" in
  let Hans := fresh "Hans" in
  let Hg := fresh "Hg" in
  let Hd := fresh "Hd" in
  intros rho' r1 r2 Hi Hans; lift_known; clear Hi;
  destruct Hans as (_ & Hg & Hd); cbn in r1, r2, Hg, Hd;
  try (apply Forall2_cons_iff in Hg as [Hg _]);
  try (injection Hd as Hd);
  try match type of Hd with [] = [] => clear Hd end;
  try match type of Hg with Forall2 _ [] [] => clear Hg end.

Lemma pelvis_loop_in_step (l1 l2 : list CoordinateActuator) (rho : Renaming)
    (e1 e2 : MocoControlGoal) :
  Forall2 (corresponds rho) (map obj_key l1) (map obj_key l2) ->
  corresponds rho (obj_key e1) (obj_key e2) ->
  in_step rho (pelvis_loop e1 l1) (pelvis_loop e2 l2).
Proof.
  revert l2 rho. induction l1 as [|a1 l1 IH]; intros [|a2 l2] rho Hl He;
    cbn in Hl; try (inversion Hl; fail).
  - reflexivity.
  - apply Forall2_cons_iff in Hl as [Ha Hl].
    unfold pelvis_loop. cbn [for_each bind trigger in_step].
    split; [same_call|]. next_answer. subst.
    destruct (has_pelvis r0); cbn [bind trigger in_step].
    + split; [same_call|]. next_answer.
      now apply IH.
    + now apply IH.
Qed.

Lemma torque_in_step :
  in_step [] torqueDrivenMarkerTracking torqueDrivenMarkerTracking.
Proof.
  unfold torqueDrivenMarkerTracking. cbn [bind trigger in_step].
  do 11 (split; [same_call | next_answer]).
  reflexivity.
Qed.

Lemma muscle_in_step :
  in_step [] muscleDrivenStateTracking muscleDrivenStateTracking.
Proof.
  unfold muscleDrivenStateTracking. cbn [bind trigger in_step].
  do 16 (split; [same_call | next_answer]).
  apply in_step_bind.
  - now apply pelvis_loop_in_step.
  - intros rho' [] Hi. lift_known. clear Hi. cbn [bind trigger in_step].
    split; [same_call | next_answer].
    split; [|next_answer; reflexivity].
    split; [cbn; congruence | same_objects].
Qed.

(** A program that names a tool it was never handed is not in step with
    itself. *)
Example conjured_tool_not_in_step :
  ~ in_step [] (trigger (setName (mkObj CMocoTrack 0) "conjured"))
               (trigger (setName (mkObj CMocoTrack 0) "conjured")).
Proof.
  cbn. intros [[_ Hu] _]. cbn in Hu.
  apply Forall2_cons_iff in Hu as [[_ []] _].
Qed.

(** ** [Demo.quiet] answers alike *)

Lemma quiet_inv_grows (rho : Renaming) (n1 n2 m1 m2 : nat) :
  n1 <= m1 -> n2 <= m2 -> quiet_inv rho n1 n2 -> quiet_inv rho m1 m2.
Proof.
  intros H1 H2 HI c i j Hin.
  destruct (HI c i j Hin) as [H | [H | (Ha & Hg & Hi & Hj)]]; auto.
  right. right. repeat split; auto; lia.
Qed.

(** A newly made object, numbered by the counters. *)
Lemma quiet_inv_made (rho : Renaming) (c : Class) (n1 n2 : nat) :
  c <> CCoordinateActuator -> c <> CMocoControlGoal ->
  one_to_one rho -> quiet_inv rho n1 n2 ->
  one_to_one ((c, n1, n2) :: rho) /\
  quiet_inv ((c, n1, n2) :: rho) (S n1) (S n2).
Proof.
  intros Ha Hg H1 HI. split.
  - intros c' i j i' j' [Heq | Hin] [Heq' | Hin'];
      repeat match goal with
             | H : (_, _, _) = (_, _, _) |- _ => inversion H; subst; clear H
             end.
    + easy.
    + destruct (HI _ _ _ Hin') as [[-> _] | [[-> _] | (_ & _ & Hi & Hj)]];
        try contradiction. split; intros <-; lia.
    + destruct (HI _ _ _ Hin) as [[-> _] | [[-> _] | (_ & _ & Hi & Hj)]];
        try contradiction. split; intros ->; lia.
    + now apply (H1 c').
  - intros c' i j [[= <- <- <-] | Hin].
    + right. right. repeat split; auto.
    + destruct (HI _ _ _ Hin) as [H | [[-> H] | (Ha' & Hg' & Hi & Hj)]]; auto.
      * right. left. split; [reflexivity | now right].
      * right. right. repeat split; auto.
Qed.

(** The cast of a goal, numbered as the goal. *)
Lemma quiet_inv_cast (rho : Renaming) (g1 g2 n1 n2 : nat) :
  In (CMocoGoal, g1, g2) rho ->
  one_to_one rho -> quiet_inv rho n1 n2 ->
  one_to_one ((CMocoControlGoal, g1, g2) :: rho) /\
  quiet_inv ((CMocoControlGoal, g1, g2) :: rho) n1 n2.
Proof.
  intros Hg H1 HI.
  assert (Hcast : forall i j, In (CMocoControlGoal, i, j) rho ->
                              In (CMocoGoal, i, j) rho).
  { intros i j Hin.
    destruct (HI _ _ _ Hin) as [[H _] | [[_ H] | (_ & H & _)]];
      [discriminate | exact H | contradiction]. }
  split.
  - intros c' i j i' j' [Heq | Hin] [Heq' | Hin'];
      repeat match goal with
             | H : (_, _, _) = (_, _, _) |- _ => inversion H; subst; clear H
             end.
    + easy.
    + apply (H1 CMocoGoal); auto.
    + apply (H1 CMocoGoal); auto.
    + now apply (H1 c').
  - intros c' i j [[= <- <- <-] | Hin].
    + right. left. split; [reflexivity | now right].
    + destruct (HI _ _ _ Hin) as [H | [[-> H] | H]]; auto.
      right. left. split; [reflexivity | now right].
Qed.

(** The actuators of the model, numbered the same in every run. *)
Lemma quiet_inv_listed (rho : Renaming) (ids : list nat) (n1 n2 : nat) :
  one_to_one rho -> quiet_inv rho n1 n2 ->
  one_to_one (map (fun i => (CCoordinateActuator, i, i)) ids ++ rho) /\
  quiet_inv (map (fun i => (CCoordinateActuator, i, i)) ids ++ rho) n1 n2.
Proof.
  intros H1 HI.
  assert (Hsame : forall c i j,
            In (c, i, j) (map (fun i => (CCoordinateActuator, i, i)) ids) ->
            c = CCoordinateActuator /\ i = j).
  { intros c i j Hin. apply in_map_iff in Hin as (k & [= <- <- <-] & _). auto. }
  assert (Hact : forall i j, In (CCoordinateActuator, i, j) rho -> i = j).
  { intros i j Hin.
    destruct (HI _ _ _ Hin) as [[_ H] | [[H _] | (H & _)]];
      [exact H | discriminate | contradiction]. }
  split.
  - intros c i j i' j' Hin Hin'.
    apply in_app_or in Hin as [Hin | Hin], Hin' as [Hin' | Hin'].
    + apply Hsame in Hin as [_ ->], Hin' as [_ ->]. tauto.
    + apply Hsame in Hin as [-> ->]. apply Hact in Hin' as ->. tauto.
    + apply Hsame in Hin' as [-> ->]. apply Hact in Hin as ->. tauto.
    + now apply (H1 c).
  - intros c i j Hin. apply in_app_or in Hin as [Hin | Hin].
    + left. now apply Hsame.
    + destruct (HI _ _ _ Hin) as [H | [[-> H] | H]]; auto.
      right. left. split; [reflexivity | apply in_or_app; now right].
Qed.

Ltac quiet_answer rho' :=
  let x := fresh "x" in
  let Hx := fresh "Hx" in
  exists rho';
  split; [ intros x Hx; cbn; auto 10 using in_or_app |
  split; [ repeat split; cbn; repeat first [apply Forall2_nil | apply Forall2_cons];
           try (split; cbn; auto 10); try reflexivity
         | cbn [Demo.quiet snd] ] ].

Lemma quiet_answers_alike : answers_alike Demo.quiet quiet_inv.
Proof.
  intros rho n1 n2 c1 c2 H1 HI [Ha Hu].
  destruct c1, c2; try discriminate Ha; cbn in Hu.
  all: try (apply Forall2_cons_iff in Hu as [[_ Hu] _]; cbn in Hu).
  all: try solve [quiet_answer rho;
                  (split; [exact H1 | apply (quiet_inv_grows (n1 := n1) (n2 := n2)); auto])].
  - quiet_answer ((CMocoTrack, n1, n2) :: rho).
    apply quiet_inv_made; auto; discriminate.
  - quiet_answer ((CMocoStudy, n1, n2) :: rho).
    apply quiet_inv_made; auto; discriminate.
  - quiet_answer ((CMocoProblem, n1, n2) :: rho).
    apply quiet_inv_made; auto; discriminate.
  - quiet_answer ((CMocoGoal, n1, n2) :: rho).
    apply quiet_inv_made; auto; discriminate.
  - quiet_answer ((CMocoControlGoal, obj_id goal, obj_id goal0) :: rho).
    now apply quiet_inv_cast.
  - quiet_answer ((CModel, n1, n2) :: rho).
    apply quiet_inv_made; auto; discriminate.
  - quiet_answer (map (fun i => (CCoordinateActuator, i, i)) [0; 1; 2; 3] ++ rho).
    now apply quiet_inv_listed.
  - destruct coordAct as [i], coordAct0 as [j]. cbn in Hu.
    assert (i = j) as <-.
    { destruct (HI _ _ _ Hu) as [[_ H] | [[H _] | (H & _)]];
        [exact H | discriminate | contradiction]. }
    quiet_answer rho. now split.
Qed.

(** [Demo.quiet] numbers the objects it makes by what was made before, so
    the calls of a procedure run second are not those of the same procedure
    run first: the runs correspond only up to a renaming. *)
Example quiet_numbers_by_history :
  calls (trace (run Demo.quiet muscleDrivenStateTracking 0)) <>
  calls (trace (run Demo.quiet muscleDrivenStateTracking
                  (final (run Demo.quiet torqueDrivenMarkerTracking 0)))).
Proof. vm_compute. discriminate. Qed.

(** ** The entries of every run *)

Section Facts.
Variable S : Type.
Variable h : Toolkit S.

(** Take the next call of the program and split on what the toolkit does. *)
Ltac toolkit_step :=
  cbn [run bind trigger];
  match goal with
  | |- context [h ?c ?s] => destruct (h c s) as [[?ex | ?r] ?s']
  end.

Lemma loop_run_facts (effort : MocoControlGoal)
    (coordActs : list CoordinateActuator) (s : S) :
  let r := run h (pelvis_loop effort coordActs) s in
  weights_set (calls (trace r)) =
    map (fun ap => (effort, snd ap, 10%Q))
        (filter (fun ap => has_pelvis (snd ap)) (path_answers (trace r))) /\
  (outcome r = Returned tt ->
   trace r = loop_entries effort (path_answers (trace r)) /\
   map fst (path_answers (trace r)) = coordActs).
Proof.
  revert s. induction coordActs as [|a acts IH]; intros s.
  - cbn. auto.
  - unfold pelvis_loop. cbn [for_each].
    toolkit_step.
    + cbn. split; [reflexivity | discriminate].
    + destruct (has_pelvis r) eqn:Hp.
      * toolkit_step.
        -- cbn. rewrite Hp. split; [reflexivity | discriminate].
        -- cbn [bind].
           match goal with
           | |- context [run h ?p s'0] => change p with (pelvis_loop effort acts)
           end.
           destruct (IH s'0) as (Hw & Hret).
           destruct (run h (pelvis_loop effort acts) s'0) as [o s2 tr].
           destruct r0. cbn in *. rewrite ?Hp. cbn. rewrite ?Hp. rewrite Hw.
           split; [reflexivity|]. intros Ho. destruct (Hret Ho) as [Ht Hm].
           split; [|now f_equal]. unfold answer. do 2 f_equal. exact Ht.
      * cbn [bind].
        match goal with
        | |- context [run h ?p s'] => change p with (pelvis_loop effort acts)
        end.
        destruct (IH s') as (Hw & Hret).
        destruct (run h (pelvis_loop effort acts) s') as [o s2 tr].
        cbn in *. rewrite ?Hp. cbn. rewrite ?Hp.
        split; [exact Hw|]. intros Ho. destruct (Hret Ho) as [Ht Hm].
        split; [|now f_equal]. unfold answer. f_equal. exact Ht.
Qed.

Lemma loop_run_no_solve (effort : MocoControlGoal)
    (coordActs : list CoordinateActuator) (s : S) :
  solve_count (calls (trace (run h (pelvis_loop effort coordActs) s))) = 0.
Proof.
  destruct (loop_shape h effort coordActs s) as (aps & Hpre & _).
  apply (Prefix_filter_length is_solve) in Hpre.
  rewrite loop_calls_no_solve in Hpre. unfold solve_count. cbn in Hpre. lia.
Qed.

Lemma muscle_run_facts (s : S) :
  let r := run h muscleDrivenStateTracking s in
  weights_set (calls (trace r)) = weights_due (trace r) /\
  (0 < solve_count (calls (trace r)) ->
   exists o rest,
     trace r = muscle_entries_before_solve o ++ rest /\
     Prefix (calls rest) (muscle_solve_calls (mo_moco o) (mo_solution o)) /\
     path_answers (trace r) = mo_paths o) /\
  (outcome r = Returned tt -> exists o, trace r = muscle_entries o).
Proof.
  unfold muscleDrivenStateTracking.
  do 16 (toolkit_step;
    [ cbn; repeat split; solve [reflexivity | discriminate | lia] | ]).
  cbn [run bind trigger].
  rewrite run_bind.
  match goal with
  | |- context [run h (pelvis_loop ?e ?l) ?s0] =>
      destruct (loop_shape h e l s0) as (aps & _ & Hc & Hg & Hs & Ht & Hm & _);
      destruct (loop_run_facts e l s0) as (Hw & Hret);
      assert (Hn := loop_run_no_solve e l s0);
      destruct (run h (pelvis_loop e l) s0) as [[[] | ex] s17 tr]
  end; cbn [outcome final trace] in *.
  - destruct (Hret eq_refl) as (Htr & Hacts).
    toolkit_step; [|toolkit_step]; cbn [trace outcome].
    all: repeat match goal with r : Result _ |- _ => cbn in r end.
    all: repeat match goal with u : unit |- _ => destruct u end.
    all: unfold weights_due, weights_set, solve_count, calls, path_answers,
           control_goals in *.
    all: cbn [map flat_map app call control_goal path_answer weight_set filter
              is_solve List.length].
    all: rewrite ?map_app, ?flat_map_app, ?filter_app, ?length_app, ?Hg, ?Hw.
    all: cbn [map flat_map app call control_goal path_answer weight_set filter
              is_solve List.length].
    all: rewrite ?app_nil_r.
    all: split; [reflexivity|]; split; [|try discriminate].
    + intros _.
      eexists (mkMuscleObjects _ _ _ _ _ _ (flat_map path_answer tr)
                 (mkMocoSolution false 0)), _.
      unfold muscle_entries_before_solve. cbn [mo_track mo_moco mo_problem
        mo_goal mo_effort mo_model mo_paths mo_solution].
      rewrite Hacts, <- Htr. split; [|split].
      * cbn [app]. unfold answer. reflexivity.
      * now exists [MocoStudy_visualize r9 (mkMocoSolution false 0)].
      * reflexivity.
    + intros _.
      eexists (mkMuscleObjects _ _ _ _ _ _ (flat_map path_answer tr) _), _.
      unfold muscle_entries_before_solve. cbn [mo_track mo_moco mo_problem
        mo_goal mo_effort mo_model mo_paths mo_solution].
      rewrite Hacts, <- Htr. split; [|split].
      * cbn [app]. unfold answer. reflexivity.
      * apply Prefix_refl.
      * reflexivity.
    + intros _.
      eexists (mkMuscleObjects _ _ _ _ _ _ (flat_map path_answer tr) _), _.
      unfold muscle_entries_before_solve. cbn [mo_track mo_moco mo_problem
        mo_goal mo_effort mo_model mo_paths mo_solution].
      rewrite Hacts, <- Htr. split; [|split].
      * cbn [app]. unfold answer. reflexivity.
      * apply Prefix_refl.
      * reflexivity.
    + intros _.
      eexists (mkMuscleObjects _ _ _ _ _ _ (flat_map path_answer tr) _).
      unfold muscle_entries, muscle_entries_before_solve.
      cbn [mo_track mo_moco mo_problem
        mo_goal mo_effort mo_model mo_paths mo_solution].
      rewrite Hacts, <- Htr. cbn [app]. reflexivity.
  - unfold weights_due, weights_set, solve_count, calls, path_answers,
      control_goals in *.
    cbn [map flat_map app call control_goal path_answer weight_set filter
         is_solve List.length].
    rewrite ?Hg, ?Hw, ?Hn, ?app_nil_r.
    split; [reflexivity|]. split; [lia | discriminate].
  Unshelve.
  all: first [exact (mkObj _ 0) | exact nil | exact (mkMocoSolution false 0)].
Qed.

Lemma torque_run_facts (s : S) :
  let r := run h torqueDrivenMarkerTracking s in
  (0 < solve_count (calls (trace r)) ->
   exists track, calls (trace r) = torque_calls track /\
                 forallb answered (removelast (trace r)) = true) /\
  (outcome r = Returned tt ->
   exists track solution, trace r = torque_entries track solution).
Proof.
  unfold torqueDrivenMarkerTracking.
  do 10 (toolkit_step;
    [ cbn; split; [lia | discriminate] | ]).
  toolkit_step; cbn.
  all: repeat match goal with r : Result _ |- _ => cbn in r end.
  all: repeat match goal with u : unit |- _ => destruct u end.
  - split; [|discriminate]. intros _. eexists. split; reflexivity.
  - split; intros _.
    + eexists. split; reflexivity.
    + eexists _, _. reflexivity.
Qed.
End Facts.

(** ** What the entries show *)

Lemma calls_app (l1 l2 : Trace) : calls (l1 ++ l2) = calls l1 ++ calls l2.
Proof. apply map_app. Qed.

Lemma calls_loop_entries (effort : MocoControlGoal)
    (aps : list (CoordinateActuator * string)) :
  calls (loop_entries effort aps) = loop_calls effort aps.
Proof.
  induction aps as [|[a p] aps IH]; [reflexivity|].
  rewrite loop_calls_cons, <- IH. unfold loop_entries. cbn [flat_map fst snd].
  rewrite calls_app. now destruct (has_pelvis p).
Qed.

Ltac by_loop_entries_induction aps :=
  let a := fresh "a" in
  let p := fresh "p" in
  let IH := fresh "IH" in
  induction aps as [|[a p] aps IH]; [reflexivity|];
  unfold loop_entries in *; cbn [flat_map fst snd];
  rewrite flat_map_app, IH; destruct (has_pelvis p); reflexivity.

Lemma loop_entries_path_answers (effort : MocoControlGoal)
    (aps : list (CoordinateActuator * string)) :
  path_answers (loop_entries effort aps) = aps.
Proof. unfold path_answers. by_loop_entries_induction aps. Qed.

Lemma loop_entries_no_study (effort : MocoControlGoal)
    (aps : list (CoordinateActuator * string)) :
  studies_initialized (loop_entries effort aps) = [].
Proof. unfold studies_initialized. by_loop_entries_induction aps. Qed.

Lemma loop_entries_no_problem (effort : MocoControlGoal)
    (aps : list (CoordinateActuator * string)) :
  problems_taken (loop_entries effort aps) = [].
Proof. unfold problems_taken. by_loop_entries_induction aps. Qed.

Lemma loop_entries_no_goal (effort : MocoControlGoal)
    (aps : list (CoordinateActuator * string)) :
  goals_taken (loop_entries effort aps) = [].
Proof. unfold goals_taken. by_loop_entries_induction aps. Qed.

Lemma loop_entries_no_cast (effort : MocoControlGoal)
    (aps : list (CoordinateActuator * string)) :
  goals_cast (loop_entries effort aps) = [].
Proof. unfold goals_cast. by_loop_entries_induction aps. Qed.

Lemma loop_entries_no_control_goal (effort : MocoControlGoal)
    (aps : list (CoordinateActuator * string)) :
  control_goals (loop_entries effort aps) = [].
Proof. unfold control_goals. by_loop_entries_induction aps. Qed.

Lemma loop_entries_no_model (effort : MocoControlGoal)
    (aps : list (CoordinateActuator * string)) :
  models_processed (loop_entries effort aps) = [].
Proof. unfold models_processed. by_loop_entries_induction aps. Qed.

Lemma loop_entries_no_list (effort : MocoControlGoal)
    (aps : list (CoordinateActuator * string)) :
  component_lists (loop_entries effort aps) = [].
Proof. unfold component_lists. by_loop_entries_induction aps. Qed.

Lemma calls_muscle_entries (o : MuscleObjects) :
  calls (muscle_entries o) = muscle_calls o.
Proof.
  unfold muscle_entries, muscle_entries_before_solve, muscle_calls.
  rewrite !calls_app, calls_loop_entries, <- app_assoc. reflexivity.
Qed.

(** * The claims *)

Ltac in_listed :=
  unfold the_input_files in *;
  repeat match goal with
         | H : In _ (_ :: _) |- _ => destruct H as [<- | H]
         | H : In _ [] |- _ => destruct H
         end;
  cbn; auto 12.

Ltac in_cases H :=
  cbn in H;
  repeat match type of H with
         | _ \/ _ => destruct H as [H | H]
         end;
  try contradiction; try discriminate.

(** C1.  In every run of muscleDrivenStateTracking that returns, the goal
    whose weights are set is the control-effort goal: the one
    [updGoal("control_effort")] handed back for the study's problem, cast to
    a MocoControlGoal, and no other goal is looked up.  The loop of lines
    173-178 asks every CoordinateActuator of the processed model for its
    absolute path, and [setWeightForControl(path, 10)] is called on that goal
    for exactly the paths that contain "pelvis": the weights set are, in
    order and number, those paths with weight 10; for an actuator's path the
    call is made if and only if the path contains "pelvis"; and no other
    control's weight is set. *)
Theorem pelvis_actuators_weighted (S : Type) (h : Toolkit S) (s : S) :
  outcome (run h muscleDrivenStateTracking s) = Returned tt ->
  weights_follow_pelvis (trace (run h muscleDrivenStateTracking s)).
Proof.
  intros Hret.
  destruct (muscle_run_facts h s) as (_ & _ & Hfull).
  destruct (Hfull Hret) as (o & ->).
  exists (mo_track o), (mo_moco o), (mo_problem o), (mo_goal o), (mo_effort o),
    (mo_model o), (map fst (mo_paths o)).
  assert (Hpaths : path_answers (muscle_entries o) = mo_paths o).
  { unfold muscle_entries, muscle_entries_before_solve, path_answers.
    rewrite !flat_map_app. fold (path_answers (loop_entries (mo_effort o) (mo_paths o))).
    rewrite loop_entries_path_answers. cbn. now rewrite app_nil_r. }
  rewrite calls_muscle_entries, Hpaths, muscle_calls_weights, muscle_calls_queries.
  repeat split; auto.
  - unfold muscle_entries, muscle_entries_before_solve, studies_initialized.
    rewrite !flat_map_app.
    fold (studies_initialized (loop_entries (mo_effort o) (mo_paths o))).
    now rewrite loop_entries_no_study.
  - unfold muscle_entries, muscle_entries_before_solve, problems_taken.
    rewrite !flat_map_app.
    fold (problems_taken (loop_entries (mo_effort o) (mo_paths o))).
    now rewrite loop_entries_no_problem.
  - unfold muscle_entries, muscle_entries_before_solve, goals_taken.
    rewrite !flat_map_app.
    fold (goals_taken (loop_entries (mo_effort o) (mo_paths o))).
    now rewrite loop_entries_no_goal.
  - unfold muscle_entries, muscle_entries_before_solve, goals_cast.
    rewrite !flat_map_app.
    fold (goals_cast (loop_entries (mo_effort o) (mo_paths o))).
    now rewrite loop_entries_no_cast.
  - unfold muscle_entries, muscle_entries_before_solve, control_goals.
    rewrite !flat_map_app.
    fold (control_goals (loop_entries (mo_effort o) (mo_paths o))).
    now rewrite loop_entries_no_control_goal.
  - unfold muscle_entries, muscle_entries_before_solve, models_processed.
    rewrite !flat_map_app.
    fold (models_processed (loop_entries (mo_effort o) (mo_paths o))).
    now rewrite loop_entries_no_model.
  - unfold muscle_entries, muscle_entries_before_solve, component_lists.
    rewrite !flat_map_app.
    fold (component_lists (loop_entries (mo_effort o) (mo_paths o))).
    now rewrite loop_entries_no_list.
  - intros Hin. apply in_map_iff in Hin as ([a' p'] & [= <-] & Hin).
    apply filter_In in Hin as [_ Hin]. now apply has_pelvis_iff.
  - intros Hc. apply has_pelvis_iff in Hc.
    apply in_map_iff. exists (coordAct, path). split; [reflexivity|].
    apply filter_In. now split.
  - apply in_map_iff in H as ([a' p'] & [= <- <- <-] & Hin). reflexivity.
  - apply in_map_iff in H as ([a' p'] & [= <- <- <-] & Hin). reflexivity.
  - apply in_map_iff in H as ([a' p'] & [= <- <- <-] & Hin).
    apply filter_In in Hin as [_ Hin]. now apply has_pelvis_iff.
  - apply in_map_iff in H as ([a' p'] & [= <- <- <-] & Hin).
    apply filter_In in Hin as [Hin _]. now exists a'.
Qed.

Lemma pelvis_actuators_weighted_witness :
  weights_follow_pelvis (trace (run Demo.quiet muscleDrivenStateTracking 0)).
Proof. apply (pelvis_actuators_weighted Demo.quiet 0). reflexivity. Defined.







(** C4, as the specification has it, fails: "exactly once for every
    execution" does not hold of a run that an exception ends before the
    solve.  When [modelProcessor.process()] of line 172 throws,
    muscleDrivenStateTracking makes no solve call at all. *)
Lemma muscle_run_without_solve :
  outcome (run Demo.failing muscleDrivenStateTracking 0) =
    Thrown (mkException "cannot open model file") /\
  solve_count (calls (trace (run Demo.failing muscleDrivenStateTracking 0))) <> 1.
Proof. split; [reflexivity | vm_compute; discriminate]. Qed.

(** C4, amended.  Neither procedure solves twice: in every run, also one that an
    exception ends, torqueDrivenMarkerTracking and muscleDrivenStateTracking
    each make at most one solve call, and in every run that returns each
    makes exactly one. *)
Theorem solve_exactly_once (S : Type) (h : Toolkit S) (s : S) :
  (solve_count (calls (trace (run h torqueDrivenMarkerTracking s))) <= 1 /\
   (outcome (run h torqueDrivenMarkerTracking s) = Returned tt ->
    solve_count (calls (trace (run h torqueDrivenMarkerTracking s))) = 1)) /\
  (solve_count (calls (trace (run h muscleDrivenStateTracking s))) <= 1 /\
   (outcome (run h muscleDrivenStateTracking s) = Returned tt ->
    solve_count (calls (trace (run h muscleDrivenStateTracking s))) = 1)).
Proof.
  split.
  - destruct (torque_shape h s) as (track & Hpre & Hfull). split.
    + apply (Prefix_filter_length is_solve) in Hpre. exact Hpre.
    + intros Hret. destruct (Hfull Hret) as [-> _]. reflexivity.
  - destruct (muscle_shape h s) as (o & Hpre & Hfull). split.
    + apply (Prefix_filter_length is_solve) in Hpre.
      fold (solve_count (muscle_calls o)) in Hpre.
      now rewrite muscle_calls_solve_count in Hpre.
    + intros Hret. destruct (Hfull Hret) as [-> _].
      apply muscle_calls_solve_count.
Qed.

Lemma solve_exactly_once_witness :
  solve_count (calls (trace (run Demo.quiet torqueDrivenMarkerTracking 0))) = 1 /\
  solve_count (calls (trace (run Demo.quiet muscleDrivenStateTracking 0))) = 1.
Proof.
  destruct (solve_exactly_once Demo.quiet 0) as [[_ Ht] [_ Hm]].
  split; [apply Ht | apply Hm]; reflexivity.
Defined.

(** C5.  The model operators form an ordered chain.  The torque-driven
    procedure appends add external loads, remove muscles, add reserves with
    optimal force 250; the muscle-driven procedure appends add external
    loads, replace the muscles with DeGrooteFregly2016 muscles, ignore
    passive fiber forces, scale the active fiber force curve width by 1.5.
    Processing applies them in that order to the base model, whatever the
    operators do, and these are the processors a returning run hands to
    [setModel]. *)
Theorem model_operator_chains (S : Type) (h : Toolkit S) (s : S) :
  (model_operators torque_modelProcessor =
     [ModOpAddExternalLoads "grf_walk.xml"; ModOpRemoveMuscles;
      ModOpAddReserves 250%Q]
   /\
   model_operators muscle_modelProcessor =
     [ModOpAddExternalLoads "grf_walk.xml";
      ModOpReplaceMusclesWithDeGrooteFregly2016;
      ModOpIgnorePassiveFiberForcesDGF;
      ModOpScaleActiveFiberForceCurveWidthDGF 1.5%Q]) /\
  (forall (M : Type) (load : string -> M) (operate : ModelOperator -> M -> M),
     process_with load operate torque_modelProcessor =
       operate (ModOpAddReserves 250%Q)
         (operate ModOpRemoveMuscles
            (operate (ModOpAddExternalLoads "grf_walk.xml")
               (load "subject_walk_armless.osim"))) /\
     process_with load operate muscle_modelProcessor =
       operate (ModOpScaleActiveFiberForceCurveWidthDGF 1.5%Q)
         (operate ModOpIgnorePassiveFiberForcesDGF
            (operate ModOpReplaceMusclesWithDeGrooteFregly2016
               (operate (ModOpAddExternalLoads "grf_walk.xml")
                  (load "subject_walk_armless.osim"))))) /\
  (outcome (run h torqueDrivenMarkerTracking s) = Returned tt ->
   models_set (calls (trace (run h torqueDrivenMarkerTracking s))) =
     [torque_modelProcessor]) /\
  (outcome (run h muscleDrivenStateTracking s) = Returned tt ->
   models_set (calls (trace (run h muscleDrivenStateTracking s))) =
     [muscle_modelProcessor]).
Proof.
  repeat split.
  - intros Hret. destruct (torque_shape h s) as (track & _ & Hfull).
    destruct (Hfull Hret) as [-> _]. reflexivity.
  - intros Hret. destruct (muscle_shape h s) as (o & _ & Hfull).
    destruct (Hfull Hret) as [-> _]. apply muscle_calls_models.
Qed.

Lemma model_operator_chains_witness :
  models_set (calls (trace (run Demo.quiet torqueDrivenMarkerTracking 0))) =
    [torque_modelProcessor] /\
  models_set (calls (trace (run Demo.quiet muscleDrivenStateTracking 0))) =
    [muscle_modelProcessor].
Proof.
  destruct (model_operator_chains Demo.quiet 0) as (_ & _ & Ht & Hm).
  split; [apply Ht | apply Hm]; reflexivity.
Defined.

(** C6.  The input files are four, with four different paths: the model
    description "subject_walk_armless.osim", the ground-reaction-force data
    "grf_walk.xml", the marker trajectories "marker_trajectories.trc" and the
    coordinate data "coordinates.sto".  Every file path a run of the program
    hands to the toolkit is one of them, and a run that returns hands over
    each of them. *)
Theorem input_files_are_the_four (S : Type) (h : Toolkit S) (s : S) :
  List.length the_input_files = 4 /\
  NoDup (map snd the_input_files) /\
  incl (input_files (calls (trace (run h main s)))) the_input_files /\
  (outcome (run h main s) = Returned EXIT_SUCCESS ->
   incl the_input_files (input_files (calls (trace (run h main s))))).
Proof.
  assert (Ht := torque_shape h s). cbv zeta in Ht.
  destruct Ht as (track & Htpre & Htfull).
  destruct (muscle_shape h (final (run h torqueDrivenMarkerTracking s)))
    as (o & Hmpre & Hmfull).
  split; [reflexivity|]. split.
  { repeat constructor; cbn; intuition discriminate. }
  apply (Prefix_flat_map_incl call_files) in Htpre, Hmpre.
  fold (input_files (torque_calls track)) in Htpre.
  fold (input_files (muscle_calls o)) in Hmpre.
  rewrite torque_calls_files in Htpre. rewrite muscle_calls_files in Hmpre.
  rewrite main_run. cbv zeta. split.
  - assert (It : incl (input_files
                         (calls (trace (run h torqueDrivenMarkerTracking s))))
                   the_input_files).
    { intros f Hf. apply Htpre in Hf. in_listed. }
    destruct (outcome (run h torqueDrivenMarkerTracking s)) as [[]|e];
      [|exact It].
    assert (Im : incl (input_files (calls (trace
                   (run h muscleDrivenStateTracking
                      (final (run h torqueDrivenMarkerTracking s))))))
                   the_input_files).
    { intros f Hf. apply Hmpre in Hf. in_listed. }
    destruct (outcome (run h muscleDrivenStateTracking _)) as [[]|e];
      cbn [trace]; unfold input_files, calls in *;
      rewrite map_app, flat_map_app; now apply incl_app.
  - destruct (outcome (run h torqueDrivenMarkerTracking s)) as [[]|e];
      [|discriminate].
    destruct (outcome (run h muscleDrivenStateTracking _)) as [[]|e];
      [|discriminate].
    intros _. cbn [trace]. unfold calls. rewrite map_app.
    destruct (Htfull eq_refl) as [Hc _]. destruct (Hmfull eq_refl) as [Hc' _].
    unfold calls in Hc, Hc'. rewrite Hc, Hc'.
    unfold input_files. rewrite flat_map_app.
    fold (input_files (torque_calls track)). fold (input_files (muscle_calls o)).
    rewrite torque_calls_files, muscle_calls_files.
    intros f Hf. in_listed.
Qed.

Lemma input_files_are_the_four_witness :
  incl the_input_files (input_files (calls (trace (run Demo.quiet main 0)))).
Proof.
  destruct (input_files_are_the_four Demo.quiet 0) as (_ & _ & _ & H).
  apply H. reflexivity.
Defined.

(** C7.  When a procedure has its problem built (by [track.solve] in the
    torque-driven procedure, by [track.initialize] in the muscle-driven one),
    its tool has received initial time 0.81 and final time 1.65; the
    torque-driven tool has markers global tracking weight 10 and mesh
    interval 0.05, the muscle-driven tool states global tracking weight 10
    and mesh interval 0.08.  No run builds a problem from other settings, and
    a run that returns builds exactly one. *)
Theorem settings_when_problem_is_built (S : Type) (h : Toolkit S) (s : S) :
  (incl (builds (calls (trace (run h torqueDrivenMarkerTracking s))))
        [torque_settings] /\
   (outcome (run h torqueDrivenMarkerTracking s) = Returned tt ->
    builds (calls (trace (run h torqueDrivenMarkerTracking s))) =
      [torque_settings])) /\
  (incl (builds (calls (trace (run h muscleDrivenStateTracking s))))
        [muscle_settings] /\
   (outcome (run h muscleDrivenStateTracking s) = Returned tt ->
    builds (calls (trace (run h muscleDrivenStateTracking s))) =
      [muscle_settings])).
Proof.
  split.
  - destruct (torque_shape h s) as (track & Hpre & Hfull). split.
    + apply Prefix_builds in Hpre. now rewrite torque_calls_builds in Hpre.
    + intros Hret. destruct (Hfull Hret) as [-> _]. apply torque_calls_builds.
  - destruct (muscle_shape h s) as (o & Hpre & Hfull). split.
    + apply Prefix_builds in Hpre. now rewrite muscle_calls_builds in Hpre.
    + intros Hret. destruct (Hfull Hret) as [-> _]. apply muscle_calls_builds.
Qed.

Lemma settings_when_problem_is_built_witness :
  builds (calls (trace (run Demo.quiet torqueDrivenMarkerTracking 0))) =
    [torque_settings] /\
  builds (calls (trace (run Demo.quiet muscleDrivenStateTracking 0))) =
    [muscle_settings].
Proof.
  destruct (settings_when_problem_is_built Demo.quiet 0) as [[_ Ht] [_ Hm]].
  split; [apply Ht | apply Hm]; reflexivity.
Defined.

(** C8.  The procedures are independent.  The file has no state of its own,
    and each procedure is in step with itself from no shared object: it
    constructs its own tool and uses the toolkit's objects only as they are
    handed to it during its own run, never by identity.  So whenever the
    toolkit answers corresponding calls alike, a procedure run after the
    other one makes the same calls, gets the same answers and ends the same
    way as when it runs first, up to the identities of the objects the
    toolkit hands out, in either order.  And a procedure that returns has
    made one tool of its own and made its tool calls on that tool only. *)
Theorem procedures_independent (S : Type) (h : Toolkit S)
    (Inv : Renaming -> S -> S -> Prop) (s : S) :
  answers_alike h Inv ->
  in_step [] torqueDrivenMarkerTracking torqueDrivenMarkerTracking /\
  in_step [] muscleDrivenStateTracking muscleDrivenStateTracking /\
  (Inv [] s (final (run h torqueDrivenMarkerTracking s)) ->
   runs_correspond
     (run h muscleDrivenStateTracking s)
     (run h muscleDrivenStateTracking
        (final (run h torqueDrivenMarkerTracking s)))) /\
  (Inv [] s (final (run h muscleDrivenStateTracking s)) ->
   runs_correspond
     (run h torqueDrivenMarkerTracking s)
     (run h torqueDrivenMarkerTracking
        (final (run h muscleDrivenStateTracking s)))) /\
  (outcome (run h torqueDrivenMarkerTracking s) = Returned tt ->
   own_tool_only (trace (run h torqueDrivenMarkerTracking s))) /\
  (outcome (run h muscleDrivenStateTracking s) = Returned tt ->
   own_tool_only (trace (run h muscleDrivenStateTracking s))).
Proof.
  intros Hh. split; [exact torque_in_step|]. split; [exact muscle_in_step|].
  assert (Hnone : one_to_one []) by (intros c i j i' j' []).
  split; [|split; [|split]].
  - intros HI.
    destruct (in_step_runs Hh _ _ _ _ muscle_in_step Hnone HI)
      as (rho & _ & H1 & Htr & Ho & _).
    now exists rho.
  - intros HI.
    destruct (in_step_runs Hh _ _ _ _ torque_in_step Hnone HI)
      as (rho & _ & H1 & Htr & Ho & _).
    now exists rho.
  - intros Hret. destruct (torque_shape h s) as (track & _ & Hfull).
    destruct (Hfull Hret) as [Hc Ht]. exists track. split; [exact Ht|].
    rewrite Hc. cbn. intuition.
  - intros Hret. destruct (muscle_shape h s) as (o & _ & Hfull).
    destruct (Hfull Hret) as (Hc & _ & _ & _ & _ & _ & Ht).
    exists (mo_track o). split; [exact Ht|].
    rewrite Hc. apply muscle_calls_tracks.
Qed.

Lemma procedures_independent_witness :
  runs_correspond
    (run Demo.quiet muscleDrivenStateTracking 0)
    (run Demo.quiet muscleDrivenStateTracking
       (final (run Demo.quiet torqueDrivenMarkerTracking 0))) /\
  runs_correspond
    (run Demo.quiet torqueDrivenMarkerTracking 0)
    (run Demo.quiet torqueDrivenMarkerTracking
       (final (run Demo.quiet muscleDrivenStateTracking 0))) /\
  own_tool_only (trace (run Demo.quiet muscleDrivenStateTracking 0)).
Proof.
  destruct (procedures_independent 0 quiet_answers_alike)
    as (_ & _ & Hm & Ht & _ & Ho).
  split; [apply Hm; intros c i j []|].
  split; [apply Ht; intros c i j [] | apply Ho; reflexivity].
Defined.

(** C9.  The marker weight set of torqueDrivenMarkerTracking has 14 entries
    with 14 different names and is left/right symmetric: "L.X" is in it with
    weight w if and only if "R.X" is in it with weight w, which is the case
    exactly for ASIS and PSIS at 20, Knee, Ankle and Heel at 10, MT5 at 5 and
    Toe at 2; every entry is an "L." or an "R." marker. *)
Theorem marker_weights_symmetric :
  List.length markerWeights = 14 /\
  NoDup (map weight_name markerWeights) /\
  (forall (X : string) (w : Q),
     In (mkMocoWeight ("L." ++ X) w) markerWeights <->
     In (mkMocoWeight ("R." ++ X) w) markerWeights) /\
  (forall (X : string) (w : Q),
     In (mkMocoWeight ("L." ++ X) w) markerWeights <-> In (X, w) marker_pairs) /\
  (forall m, In m markerWeights ->
     exists X, weight_name m = ("L." ++ X)%string \/
               weight_name m = ("R." ++ X)%string).
Proof.
  split; [reflexivity|]. split.
  { repeat constructor; cbn; intuition discriminate. }
  split; [|split].
  - intros X w. split; intros H; in_cases H; injection H as <- <-; cbn; auto 20.
  - intros X w. split; intros H; in_cases H; injection H as <- <-; cbn; auto 20.
  - intros m H. in_cases H; subst m; cbn; eauto.
Qed.

Lemma marker_weights_symmetric_witness :
  In (mkMocoWeight "R.MT5" 5%Q) markerWeights /\
  exists X, "L.Toe" = ("L." ++ X)%string \/ "L.Toe" = ("R." ++ X)%string.
Proof.
  destruct marker_weights_symmetric as (_ & _ & Hsym & Hpairs & Hside).
  split.
  - apply (Hsym "MT5" 5%Q). apply (Hpairs "MT5" 5%Q). cbn. auto 10.
  - apply (Hside (mkMocoWeight "L.Toe" 2%Q)). cbn. auto 20.
Defined.

(** C10.  main runs torqueDrivenMarkerTracking and then, from where it
    returned, muscleDrivenStateTracking, and returns EXIT_SUCCESS whenever
    both return, whatever the solves handed back; main returns no other code.
    An exception of the first procedure ends the run before the second is
    called, and an exception of either leaves main unchanged: it is the one
    the last call of the run raised, every call before it having been
    answered. *)
Theorem main_exit_code (S : Type) (h : Toolkit S) (s : S) :
  let r := run h main s in
  let r1 := run h torqueDrivenMarkerTracking s in
  let r2 := run h muscleDrivenStateTracking (final r1) in
  (outcome r1 = Returned tt -> outcome r2 = Returned tt ->
   outcome r = Returned EXIT_SUCCESS /\ trace r = trace r1 ++ trace r2) /\
  (forall code, outcome r = Returned code ->
     code = EXIT_SUCCESS /\ outcome r1 = Returned tt /\ outcome r2 = Returned tt) /\
  (forall e, outcome r1 = Thrown e -> outcome r = Thrown e /\ trace r = trace r1) /\
  (forall e, outcome r1 = Returned tt -> outcome r2 = Thrown e ->
     outcome r = Thrown e /\ trace r = trace r1 ++ trace r2) /\
  (forall e, outcome r = Thrown e ->
     exists tr c, trace r = tr ++ [mkEntry c (inl e)] /\
                  forallb answered tr = true).
Proof.
  cbv zeta. split; [|split; [|split; [|split]]].
  5: { intros e He. now apply run_thrown_last. }
  all: rewrite main_run; cbv zeta.
  all: destruct (outcome (run h torqueDrivenMarkerTracking s)) as [[]|e1];
       [destruct (outcome (run h muscleDrivenStateTracking _)) as [[]|e2]|].
  all: cbn; intros; repeat split; congruence.
Qed.

Lemma main_exit_code_witness :
  outcome (run Demo.quiet main 0) = Returned EXIT_SUCCESS /\
  forallb solution_success (solutions (trace (run Demo.quiet main 0))) = false /\
  outcome (run Demo.failing main 0) =
    Thrown (mkException "cannot open model file").
Proof.
  destruct (main_exit_code Demo.quiet 0) as (Hok & _).
  destruct (main_exit_code Demo.failing 0) as (_ & _ & _ & Hthrow & _).
  split; [apply Hok; reflexivity|].
  split; [reflexivity|].
  apply (Hthrow (mkException "cannot open model file")); reflexivity.
Defined.

(** * Further properties *)


(** ** std::string::find, by offsets *)

Lemma occurs_at_zero (s pat : string) :
  occurs_at s pat 0 <-> StdString.starts_with pat s = true.
Proof.
  rewrite starts_with_iff. split.
  - intros (pre & post & -> & Hl). destruct pre; [|discriminate]. now exists post.
  - intros (post & ->). now exists EmptyString, post.
Qed.

Lemma occurs_at_succ (a : ascii) (s pat : string) (n : nat) :
  occurs_at (String a s) pat (S n) <-> occurs_at s pat n.
Proof.
  split.
  - intros (pre & post & H & Hl). destruct pre as [|b pre]; [discriminate|].
    cbn in H, Hl. injection H as -> ->. injection Hl as <-. now exists pre, post.
  - intros (pre & post & -> & <-). now exists (String a pre), post.
Qed.

Lemma occurs_at_empty (pat : string) (n : nat) :
  occurs_at EmptyString pat (S n) -> False.
Proof. intros (pre & post & H & Hl). destruct pre; discriminate. Qed.

Lemma find_from_first (s pat : string) (pos n : nat) :
  StdString.find_from s pat pos = Some n ->
  pos <= n /\ occurs_at s pat (n - pos) /\
  forall m, m < n - pos -> ~ occurs_at s pat m.
Proof.
  revert pos. induction s as [|a s IH]; intros pos; cbn.
  - destruct (StdString.starts_with pat "") eqn:E; [|discriminate].
    intros [= <-]. rewrite Nat.sub_diag. split; [lia|]. split.
    + now apply occurs_at_zero.
    + intros m Hm. lia.
  - destruct (StdString.starts_with pat (String a s)) eqn:E.
    + intros [= <-]. rewrite Nat.sub_diag. split; [lia|]. split.
      * now apply occurs_at_zero.
      * intros m Hm. lia.
    + intros H. destruct (IH _ H) as (Hle & Hocc & Hmin).
      replace (n - pos) with (S (n - S pos)) by lia.
      split; [lia|]. split.
      * now apply occurs_at_succ.
      * intros [|m] Hm.
        -- rewrite occurs_at_zero. congruence.
        -- rewrite occurs_at_succ. apply Hmin. lia.
Qed.

Lemma find_from_none (s pat : string) (pos : nat) :
  StdString.find_from s pat pos = None -> forall m, ~ occurs_at s pat m.
Proof.
  revert pos. induction s as [|a s IH]; intros pos; cbn.
  - destruct (StdString.starts_with pat "") eqn:E; [discriminate|].
    intros _ [|m].
    + rewrite occurs_at_zero. congruence.
    + intros Ho. now apply occurs_at_empty in Ho.
  - destruct (StdString.starts_with pat (String a s)) eqn:E; [discriminate|].
    intros H [|m].
    + rewrite occurs_at_zero. congruence.
    + rewrite occurs_at_succ. now apply (IH _ H).
Qed.

(** X1.  [find] is std::string's: it answers offset n exactly when the
    pattern occurs at offset n and at no smaller offset, and it answers npos
    exactly when the pattern occurs at no offset. *)
Theorem find_first_occurrence (s pat : string) :
  (forall n, StdString.find s pat = Some n <->
             occurs_at s pat n /\ forall m, m < n -> ~ occurs_at s pat m) /\
  (StdString.find s pat = None <-> forall m, ~ occurs_at s pat m).
Proof.
  unfold StdString.find. split.
  - intros n. split.
    + intros H. apply find_from_first in H as (_ & Hocc & Hmin).
      rewrite Nat.sub_0_r in *. now split.
    + intros [Hocc Hmin].
      destruct (StdString.find_from s pat 0) as [n'|] eqn:E.
      * apply find_from_first in E as (_ & Hocc' & Hmin').
        rewrite Nat.sub_0_r in *.
        destruct (Nat.lt_trichotomy n n') as [Hlt | [-> | Hlt]].
        -- now destruct (Hmin' n Hlt).
        -- reflexivity.
        -- now destruct (Hmin n' Hlt).
      * destruct (find_from_none _ E Hocc).
  - split.
    + apply find_from_none.
    + intros Hno. destruct (StdString.find_from s pat 0) as [n|] eqn:E;
        [|reflexivity].
      apply find_from_first in E as (_ & Hocc & _). now destruct (Hno _ Hocc).
Qed.

Lemma find_first_occurrence_witness :
  occurs_at "/forceset/pelvis_tx" "pelvis" 10 /\
  forall m, ~ occurs_at "/forceset/hip_flexion_r" "pelvis" m.
Proof.
  split.
  - apply (proj1 (proj1 (find_first_occurrence "/forceset/pelvis_tx" "pelvis") 10)).
    reflexivity.
  - apply (proj1 (proj2 (find_first_occurrence "/forceset/hip_flexion_r" "pelvis"))).
    reflexivity.
Defined.

Lemma string_app_assoc (a b c : string) :
  ((a ++ b) ++ c = a ++ b ++ c)%string.
Proof. induction a as [|x a IH]; cbn; [reflexivity | now rewrite IH]. Qed.

Lemma string_length_app (a b : string) :
  String.length (a ++ b) = String.length a + String.length b.
Proof. induction a as [|x a IH]; cbn; [reflexivity | now rewrite IH]. Qed.

(** X2.  The test of line 175 looks at the whole path: a path that passes
    still passes with anything put in front of it or behind it, and no path
    shorter than six characters (so not the empty path) passes. *)
Theorem pelvis_test_on_longer_and_shorter_paths :
  (forall pre coordPath post : string,
     has_pelvis coordPath = true ->
     has_pelvis (pre ++ coordPath ++ post) = true) /\
  (forall coordPath : string,
     has_pelvis coordPath = true -> 6 <= String.length coordPath).
Proof.
  split.
  - intros pre p post H. apply has_pelvis_iff in H as (a & b & ->).
    apply has_pelvis_iff. exists (pre ++ a)%string, (b ++ post)%string.
    now rewrite !string_app_assoc.
  - intros p H. apply has_pelvis_iff in H as (a & b & ->).
    rewrite !string_length_app. cbn. lia.
Qed.

Lemma pelvis_test_on_longer_and_shorter_paths_witness :
  has_pelvis ("/model" ++ "/forceset/pelvis_tx" ++ "/geometry") = true /\
  6 <= String.length "pelvis".
Proof.
  destruct pelvis_test_on_longer_and_shorter_paths as [Hext Hlen].
  split; [apply Hext | apply Hlen]; reflexivity.
Defined.

(** ** Runs cut short *)

(** X3.  Also in a run of muscleDrivenStateTracking that an exception cuts
    short, the weights set so far are right: they are, in order and number,
    weight 10 on the goal the cast handed back for each path answered so far
    that has "pelvis" in it; no weight is set on another goal, with another
    value, or under a name no actuator answered. *)
Theorem weights_in_every_run (S : Type) (h : Toolkit S) (s : S) :
  let tr := trace (run h muscleDrivenStateTracking s) in
  weights_set (calls tr) = weights_due tr /\
  (forall goal controlName weight,
     In (goal, controlName, weight) (weights_set (calls tr)) ->
     In goal (control_goals tr) /\ weight = 10%Q /\
     contains controlName "pelvis" /\
     exists coordAct, In (coordAct, controlName) (path_answers tr)).
Proof.
  cbv zeta. destruct (muscle_run_facts h s) as (Hw & _).
  split; [exact Hw|]. intros goal name w Hin. rewrite Hw in Hin.
  unfold weights_due in Hin.
  apply in_flat_map in Hin as (g & Hg & Hin).
  apply in_map_iff in Hin as ([a p] & [= <- <- <-] & Hin).
  apply filter_In in Hin as [Hin Hp].
  repeat split; auto.
  - now apply has_pelvis_iff.
  - now exists a.
Qed.

Lemma weights_in_every_run_witness :
  outcome (run Faulty.mid_loop muscleDrivenStateTracking 0) =
    Thrown (mkException "no such component") /\
  map (fun x => snd (fst x))
      (weights_set (calls (trace (run Faulty.mid_loop muscleDrivenStateTracking 0))))
    = ["/forceset/pelvis_tx"] /\
  contains "/forceset/pelvis_tx" "pelvis".
Proof.
  destruct (weights_in_every_run Faulty.mid_loop 0) as [_ Hall].
  split; [reflexivity|]. split; [reflexivity|].
  apply (Hall (mkObj CMocoControlGoal 3) "/forceset/pelvis_tx" 10%Q).
  cbn. auto.
Defined.

(** X4.  The solver is never started on a half-configured problem.  If a run
    of torqueDrivenMarkerTracking makes its solve call, it has made all the
    calls before it and each was answered.  If a run of
    muscleDrivenStateTracking makes its solve call, every call of the
    configuration and of the customization was answered and the loop has
    gone through every actuator the model listed; after that come only the
    solve and the visualize. *)
Theorem solve_only_when_configured (S : Type) (h : Toolkit S) (s : S) :
  (0 < solve_count (calls (trace (run h torqueDrivenMarkerTracking s))) ->
   exists track,
     calls (trace (run h torqueDrivenMarkerTracking s)) = torque_calls track /\
     forallb answered (removelast (trace (run h torqueDrivenMarkerTracking s)))
       = true) /\
  (0 < solve_count (calls (trace (run h muscleDrivenStateTracking s))) ->
   exists o rest,
     trace (run h muscleDrivenStateTracking s) =
       muscle_entries_before_solve o ++ rest /\
     Prefix (calls rest) (muscle_solve_calls (mo_moco o) (mo_solution o)) /\
     path_answers (trace (run h muscleDrivenStateTracking s)) = mo_paths o).
Proof.
  split.
  - apply torque_run_facts.
  - apply muscle_run_facts.
Qed.

Lemma solve_only_when_configured_witness :
  (exists track,
     calls (trace (run Demo.quiet torqueDrivenMarkerTracking 0)) =
       torque_calls track) /\
  (exists o rest,
     trace (run Demo.quiet muscleDrivenStateTracking 0) =
       muscle_entries_before_solve o ++ rest).
Proof.
  destruct (solve_only_when_configured Demo.quiet 0) as [Ht Hm].
  split.
  - destruct Ht as (track & Hc & _); [cbn; lia|]. now exists track.
  - destruct Hm as (o & rest & Htr & _); [cbn; lia|]. now exists o, rest.
Defined.

(** ** Where the objects come from *)

Lemma scoped_app (known : list (Class * nat)) (l1 l2 : Trace) :
  scoped known (l1 ++ l2) <->
  scoped known l1 /\ scoped (known ++ flat_map objects_given l1) l2.
Proof.
  revert known. induction l1 as [|e l1 IH]; intros known; cbn.
  - rewrite app_nil_r. tauto.
  - rewrite IH, <- app_assoc. tauto.
Qed.

Lemma scoped_mono (known known' : list (Class * nat)) (tr : Trace) :
  incl known known' -> scoped known tr -> scoped known' tr.
Proof.
  revert known known'. induction tr as [|e tr IH]; intros known known' Hi; cbn.
  - auto.
  - intros [Hu Hs]. split.
    + now apply incl_tran with known.
    + apply (IH (known ++ objects_given e)); [|exact Hs].
      apply incl_app; [now apply incl_appl | apply incl_appr, incl_refl].
Qed.

Lemma loop_entries_scoped (known : list (Class * nat))
    (effort : MocoControlGoal) (aps : list (CoordinateActuator * string)) :
  In (obj_key effort) known ->
  (forall ap, In ap aps -> In (obj_key (fst ap)) known) ->
  scoped known (loop_entries effort aps).
Proof.
  intros He. induction aps as [|[a p] aps IH]; intros Ha; [exact I|].
  assert (Hrest : scoped known (loop_entries effort aps))
    by (apply IH; intros ap Hin; apply Ha; now right).
  assert (Hin : In (obj_key a) known) by (apply (Ha (a, p)); now left).
  unfold loop_entries in *. cbn [flat_map fst snd].
  destruct (has_pelvis p); cbn; rewrite ?app_nil_r.
  - repeat split; try exact Hrest; intros x [<- | []]; assumption.
  - repeat split; try exact Hrest; intros x [<- | []]; assumption.
Qed.

Ltac known_object :=
  match goal with
  | |- incl _ _ =>
      let x := fresh in
      let H := fresh in
      intros x H; cbn in H;
      repeat match type of H with _ \/ _ => destruct H as [H | H] end;
      try contradiction; subst x;
      cbn; rewrite ?in_app_iff; cbn; auto 20
  end.

Lemma torque_entries_scoped (track : MocoTrack) (solution : MocoSolution) :
  scoped [] (torque_entries track solution).
Proof. cbn. repeat split; try known_object. Qed.

Lemma muscle_entries_scoped (o : MuscleObjects) : scoped [] (muscle_entries o).
Proof.
  unfold muscle_entries, muscle_entries_before_solve.
  rewrite !scoped_app. repeat split.
  all: cbn; try exact I; try known_object.
  apply loop_entries_scoped.
  - cbn. auto 10.
  - intros ap Hin. do 6 right. apply in_or_app. left.
    apply (in_map obj_key), (in_map fst), Hin.
Qed.

(** X5.  In a run that returns, every toolkit object a call is made on (tool,
    study, problem, goal, model, actuator) was handed to the program by an
    earlier answer of the same run; this holds for each procedure and for
    main. *)
Theorem objects_come_from_the_toolkit (S : Type) (h : Toolkit S) (s : S) :
  (outcome (run h torqueDrivenMarkerTracking s) = Returned tt ->
   scoped [] (trace (run h torqueDrivenMarkerTracking s))) /\
  (outcome (run h muscleDrivenStateTracking s) = Returned tt ->
   scoped [] (trace (run h muscleDrivenStateTracking s))) /\
  (outcome (run h main s) = Returned EXIT_SUCCESS ->
   scoped [] (trace (run h main s))).
Proof.
  assert (Ht : forall s0, outcome (run h torqueDrivenMarkerTracking s0) = Returned tt ->
                 scoped [] (trace (run h torqueDrivenMarkerTracking s0))).
  { intros s0 Hret. destruct (torque_run_facts h s0) as (_ & Hfull).
    destruct (Hfull Hret) as (track & sol & ->). apply torque_entries_scoped. }
  assert (Hm : forall s0, outcome (run h muscleDrivenStateTracking s0) = Returned tt ->
                 scoped [] (trace (run h muscleDrivenStateTracking s0))).
  { intros s0 Hret. destruct (muscle_run_facts h s0) as (_ & _ & Hfull).
    destruct (Hfull Hret) as (o & ->). apply muscle_entries_scoped. }
  split; [apply Ht|]. split; [apply Hm|].
  rewrite main_run. cbv zeta.
  destruct (outcome (run h torqueDrivenMarkerTracking s)) as [[]|e] eqn:E1;
    [|discriminate].
  destruct (outcome (run h muscleDrivenStateTracking _)) as [[]|e] eqn:E2;
    [|discriminate].
  intros _. cbn [trace]. apply scoped_app. split; [now apply Ht|].
  apply scoped_mono with (known := []); [apply incl_nil_l | now apply Hm].
Qed.

Lemma objects_come_from_the_toolkit_witness :
  scoped [] (trace (run Demo.quiet main 0)).
Proof.
  destruct (objects_come_from_the_toolkit Demo.quiet 0) as (_ & _ & H).
  apply H. reflexivity.
Defined.

(** ** Solving and showing *)

Lemma loop_calls_not_shown (effort : MocoControlGoal)
    (aps : list (CoordinateActuator * string)) :
  flat_map visualized (loop_calls effort aps) = [].
Proof. by_loop_induction aps. Qed.

(** X6.  Each procedure shows the solution it solved for, once.  The last
    call of a returning torqueDrivenMarkerTracking is its only solve, made
    with visualize set.  The last two calls of a returning
    muscleDrivenStateTracking are its only solve and its only visualize, both
    on the study that [track.initialize()] handed back, and what is shown is
    the solution that solve returned. *)
Theorem solution_solved_is_shown (S : Type) (h : Toolkit S) (s : S) :
  (outcome (run h torqueDrivenMarkerTracking s) = Returned tt ->
   exists pre track solution,
     trace (run h torqueDrivenMarkerTracking s) =
       pre ++ [answer (MocoTrack_solve track true) solution] /\
     solve_count (calls pre) = 0) /\
  (outcome (run h muscleDrivenStateTracking s) = Returned tt ->
   exists pre track moco solution,
     trace (run h muscleDrivenStateTracking s) =
       pre ++ [answer (MocoStudy_solve moco) solution;
               answer (MocoStudy_visualize moco solution) tt] /\
     In (answer (MocoTrack_initialize track) moco) pre /\
     solve_count (calls pre) = 0 /\
     flat_map visualized (calls pre) = []).
Proof.
  split; intros Hret.
  - destruct (torque_run_facts h s) as (_ & Hfull).
    destruct (Hfull Hret) as (track & sol & ->).
    exists (removelast (torque_entries track sol)), track, sol.
    split; reflexivity.
  - destruct (muscle_run_facts h s) as (_ & _ & Hfull).
    destruct (Hfull Hret) as (o & ->).
    exists (muscle_entries_before_solve o), (mo_track o), (mo_moco o),
      (mo_solution o).
    split; [reflexivity|]. split; [|split].
    + unfold muscle_entries_before_solve. apply in_or_app. left. cbn. auto 20.
    + unfold muscle_entries_before_solve, solve_count.
      rewrite calls_app, calls_loop_entries, filter_app, loop_calls_no_solve.
      reflexivity.
    + unfold muscle_entries_before_solve.
      rewrite calls_app, calls_loop_entries, flat_map_app, loop_calls_not_shown.
      reflexivity.
Qed.

Lemma solution_solved_is_shown_witness :
  exists pre track moco solution,
    trace (run Demo.quiet muscleDrivenStateTracking 0) =
      pre ++ [answer (MocoStudy_solve moco) solution;
              answer (MocoStudy_visualize moco solution) tt] /\
    In (answer (MocoTrack_initialize track) moco) pre.
Proof.
  destruct (solution_solved_is_shown Demo.quiet 0) as [_ Hm].
  destruct Hm as (pre & track & moco & sol & Htr & Hin & _); [reflexivity|].
  now exists pre, track, moco, sol.
Defined.

(** ** One problem at a time *)

(** X10.  The program never has two problems under way: a run of main
    constructs at most two tools, and when it constructs the second one,
    torqueDrivenMarkerTracking has returned, its eleven calls up to and
    including the solve having all been answered before. *)
Theorem second_tool_after_first_solve (S : Type) (h : Toolkit S) (s : S) :
  tools_constructed (calls (trace (run h main s))) <= 2 /\
  (2 <= tools_constructed (calls (trace (run h main s))) ->
   outcome (run h torqueDrivenMarkerTracking s) = Returned tt /\
   exists track solution rest,
     trace (run h main s) = torque_entries track solution ++ rest /\
     tools_constructed (calls rest) = 1).
Proof.
  assert (Ht := torque_shape h s). cbv zeta in Ht.
  destruct Ht as (track & Htpre & _).
  apply (Prefix_filter_length is_new_tool) in Htpre.
  change (List.length (filter is_new_tool (torque_calls track))) with 1 in Htpre.
  destruct (muscle_shape h (final (run h torqueDrivenMarkerTracking s)))
    as (o & Hmpre & _).
  apply (Prefix_filter_length is_new_tool) in Hmpre.
  assert (Hm1 : List.length (filter is_new_tool (muscle_calls o)) = 1).
  { unfold muscle_calls. rewrite !filter_app.
    assert (H : forall e aps, filter is_new_tool (loop_calls e aps) = [])
      by (intros e aps; by_loop_induction aps).
    now rewrite H. }
  rewrite Hm1 in Hmpre.
  destruct (torque_run_facts h s) as (_ & Hfull).
  rewrite main_run. cbv zeta. unfold tools_constructed in *.
  destruct (outcome (run h torqueDrivenMarkerTracking s)) as [[]|e].
  - destruct (Hfull eq_refl) as (t & sol & Htr).
    assert (Hone : List.length (filter is_new_tool
                     (calls (trace (run h torqueDrivenMarkerTracking s)))) = 1)
      by now rewrite Htr.
    destruct (outcome (run h muscleDrivenStateTracking _)) as [[]|e];
      cbn [trace]; rewrite calls_app, filter_app, length_app.
    all: split; [lia|]; intros H2; split; [reflexivity|].
    all: exists t, sol; eexists; split; [now rewrite Htr | lia].
  - cbn [trace]. split; [lia|]. intros H2. lia.
Qed.

Lemma second_tool_after_first_solve_witness :
  outcome (run Demo.quiet torqueDrivenMarkerTracking 0) = Returned tt /\
  exists track solution rest,
    trace (run Demo.quiet main 0) = torque_entries track solution ++ rest.
Proof.
  destruct (second_tool_after_first_solve Demo.quiet 0) as [_ H].
  destruct H as (Hret & track & sol & rest & Htr & _); [cbn; lia|].
  split; [exact Hret|]. now exists track, sol, rest.
Defined.

Lemma tracks_used_after_build_app (l1 l2 : list Call) :
  incl (tracks_used_after_build l1) (tracks_used_after_build (l1 ++ l2)).
Proof.
  induction l1 as [|c l1 IH]; cbn; [apply incl_nil_l|].
  destruct (build_target c); [|exact IH].
  unfold tracks_used. rewrite flat_map_app. apply incl_appl, incl_refl.
Qed.

(** X11.  Once a procedure has had its problem built ([track.solve] in the
    torque-driven procedure, [track.initialize] in the muscle-driven one), no
    later call of the run is made on the tool, in any run: the muscle-driven
    procedure customizes through the study only. *)
Theorem tool_untouched_after_build (S : Type) (h : Toolkit S) (s : S) :
  tracks_used_after_build (calls (trace (run h torqueDrivenMarkerTracking s))) = [] /\
  tracks_used_after_build (calls (trace (run h muscleDrivenStateTracking s))) = [].
Proof.
  split.
  - destruct (torque_shape h s) as (track & [rest Hpre] & _).
    apply incl_l_nil. 
    eapply incl_tran; [apply (tracks_used_after_build_app _ rest)|].
    rewrite <- Hpre. cbn. apply incl_refl.
  - destruct (muscle_shape h s) as (o & [rest Hpre] & _).
    apply incl_l_nil.
    eapply incl_tran; [apply (tracks_used_after_build_app _ rest)|].
    rewrite <- Hpre. unfold muscle_calls. cbn.
    unfold tracks_used. rewrite flat_map_app.
    fold (tracks_used (loop_calls (mo_effort o) (mo_paths o))).
    rewrite loop_calls_no_track. cbn. apply incl_refl.
Qed.

(** ** The loop, call by call *)

Lemma split_after (l rest pre : Trace) (x : Entry) (post : Trace) :
  (forall e, In e l -> weight_set (call e) = []) ->
  l ++ rest = pre ++ x :: post ->
  weight_set (call x) <> [] ->
  exists pre0, pre = l ++ pre0 /\ rest = pre0 ++ x :: post.
Proof.
  revert pre. induction l as [|e l IH]; intros pre Hl Heq Hx.
  - now exists pre.
  - destruct pre as [|e' pre]; cbn in Heq; injection Heq as <- Heq.
    + destruct Hx. apply Hl. now left.
    + destruct (IH pre) as (pre0 & -> & ->); auto.
      * intros e0 H0. apply Hl. now right.
      * now exists pre0.
Qed.

Lemma loop_entries_weight_after_query (effort : MocoControlGoal)
    (aps : list (CoordinateActuator * string)) (tail pre : Trace) (x : Entry)
    (post : Trace) (g : MocoControlGoal) (p : string) (w : Q) :
  (forall e, In e tail -> weight_set (call e) = []) ->
  loop_entries effort aps ++ tail = pre ++ x :: post ->
  call x = setWeightForControl g p w ->
  exists pre' a,
    pre = pre' ++ [answer (getAbsolutePathString a) p] /\
    g = effort /\ w = 10%Q /\ has_pelvis p = true.
Proof.
  intros Htail. revert pre. induction aps as [|[a p0] aps IH]; intros pre Heq Hx.
  - cbn in Heq. assert (Hin : In x tail) by (rewrite Heq; apply in_elt).
    apply Htail in Hin. rewrite Hx in Hin. discriminate.
  - unfold loop_entries in Heq. cbn [flat_map fst snd] in Heq.
    fold (loop_entries effort aps) in Heq.
    destruct pre as [|e1 pre]; cbn in Heq; injection Heq as <- Heq;
      [discriminate|].
    destruct (has_pelvis p0) eqn:Hp; cbn in Heq.
    + destruct pre as [|e2 pre]; cbn in Heq; injection Heq as <- Heq.
      * cbn in Hx. injection Hx as <- <- <-.
        exists [], a. auto.
      * destruct (IH pre Heq Hx) as (pre' & a' & -> & Hrest).
        exists (answer (getAbsolutePathString a) p0 ::
                answer (setWeightForControl effort p0 10%Q) tt :: pre'), a'.
        auto.
    + destruct (IH pre Heq Hx) as (pre' & a' & -> & Hrest).
      exists (answer (getAbsolutePathString a) p0 :: pre'), a'. auto.
Qed.

(** X8.  In a returning run of muscleDrivenStateTracking every
    [setWeightForControl] call comes directly after an answered
    [getAbsolutePathString] call, its control name is the path just answered,
    that path passes the "pelvis" test and the weight is 10. *)
Theorem weight_follows_its_query (S : Type) (h : Toolkit S) (s : S)
    (pre : Trace) (x : Entry) (post : Trace)
    (goal : MocoControlGoal) (controlName : string) (weight : Q) :
  outcome (run h muscleDrivenStateTracking s) = Returned tt ->
  trace (run h muscleDrivenStateTracking s) = pre ++ x :: post ->
  call x = setWeightForControl goal controlName weight ->
  exists pre' coordAct,
    pre = pre' ++ [answer (getAbsolutePathString coordAct) controlName] /\
    weight = 10%Q /\ has_pelvis controlName = true.
Proof.
  intros Hret Htr Hx.
  destruct (muscle_run_facts h s) as (_ & _ & Hfull).
  destruct (Hfull Hret) as (o & Ho). rewrite Ho in Htr.
  unfold muscle_entries, muscle_entries_before_solve in Htr.
  rewrite <- !app_assoc in Htr.
  apply split_after in Htr as (pre0 & -> & Htr).
  - eapply loop_entries_weight_after_query in Htr as (pre' & a & -> & _ & Hw & Hp);
      [| |exact Hx].
    + eexists _, a. rewrite app_assoc. auto.
    + intros e [<- | [<- | []]]; reflexivity.
  - intros e He. cbn in He.
    repeat match type of He with _ \/ _ => destruct He as [<- | He] end;
      try reflexivity; contradiction.
  - rewrite Hx. discriminate.
Qed.

Lemma weight_follows_its_query_witness :
  exists pre' coordAct,
    firstn 17 (trace (run Demo.quiet muscleDrivenStateTracking 0)) =
      pre' ++ [answer (getAbsolutePathString coordAct) "/forceset/pelvis_tx"].
Proof.
  destruct (@weight_follows_its_query nat Demo.quiet 0
              (firstn 17 (trace (run Demo.quiet muscleDrivenStateTracking 0)))
              (nth 17 (trace (run Demo.quiet muscleDrivenStateTracking 0))
                   (answer MocoTrack_new (mkObj CMocoTrack 0)))
              (skipn 18 (trace (run Demo.quiet muscleDrivenStateTracking 0)))
              (mkObj CMocoControlGoal 3) "/forceset/pelvis_tx" 10%Q
              eq_refl eq_refl eq_refl)
    as (pre' & a & H & _).
  now exists pre', a.
Defined.
